(** * kucoin-ws: the Connection and the Router of [src/index.ts]

    A shallow embedding of the two classes of [src/index.ts]: the
    connection class (one WebSocket, its flags, its subscription array and
    its throttling queue) and the router class that shards subscriptions
    over a list of connections.

    JavaScript objects become records, the mutable fields of a class become
    the fields of a state record that every method threads, and an
    exception becomes the [Thrown] outcome of a small state-and-exception
    monad: a method that throws half way keeps the mutations it has already
    made, exactly as the class does. *)

From Stdlib Require Import String Ascii List ZArith Bool Lia Arith Permutation.
From Stdlib Require Import DecimalString.
Import ListNotations.
Local Open Scope string_scope.

(** ** JavaScript string and array primitives used by the source *)

Module Js.

(** [s.replace(c, d)] with a string pattern: only the first occurrence
    of [c] is replaced. *)
Fixpoint replace (c d : ascii) (s : string) : string :=
  match s with
  | EmptyString => EmptyString
  | String a r => if Ascii.eqb a c then String d r else String a (replace c d r)
  end.

(** [s.split(sep)] for a one-character separator. *)
Fixpoint split (sep : ascii) (s : string) : list string :=
  match s with
  | EmptyString => [EmptyString]
  | String a r =>
      if Ascii.eqb a sep then EmptyString :: split sep r
      else match split sep r with
           | h :: t => String a h :: t
           | [] => [String a EmptyString]
           end
  end.

(** [arr.includes(k)] on an array of strings. *)
Definition includes (arr : list string) (k : string) : bool :=
  existsb (String.eqb k) arr.

(** [arr.filter(x => x !== k)]. *)
Definition remove (arr : list string) (k : string) : list string :=
  filter (fun fSub => negb (String.eqb fSub k)) arr.

(** Truthiness of a possibly-undefined string: [undefined] and the empty
    string are falsy. *)
Definition truthy (v : option string) : bool :=
  match v with
  | None => false
  | Some EmptyString => false
  | Some _ => true
  end.

(** What a template literal prints for a possibly-undefined value. *)
Definition show (v : option string) : string :=
  match v with
  | None => "undefined"
  | Some s => s
  end.

(** The character [c] occurs in [s]. *)
Fixpoint has (c : ascii) (s : string) : bool :=
  match s with
  | EmptyString => false
  | String a r => Ascii.eqb a c || has c r
  end.

Definition of_nat (n : nat) : string :=
  NilEmpty.string_of_uint (Nat.to_uint n).

End Js.

(** ** JSON objects, as written between braces in the source *)

Module Json.

Inductive value : Type :=
| Num (z : Z)
| Str (s : string)
| Bool (b : bool).

Definition object : Type := list (string * value).

Fixpoint field (k : string) (o : object) : option value :=
  match o with
  | [] => None
  | (k', v) :: r => if String.eqb k k' then Some v else field k r
  end.

End Json.

(** ** Errors and outcomes *)

(** The errors the two classes raise; the names are those of the
    specification's taxonomy, the comments give the JavaScript raise. *)
Inductive JsError : Type :=
| NotConnectedError          (* Error('Please call connect before subscribing') *)
| InvalidIntervalError       (* TypeError('Wrong format waiting for: ...') *)
| ActiveSubscriptionsError   (* Error('You have activated subscriptions! (n)') *)
| TokenAcquisitionError      (* Error('Invalid public token from KuCoin') *)
| RequestError               (* the rejection of the [got] promise *)
| UndefinedAccessError.      (* the runtime's TypeError on a property of undefined *)

Inductive Outcome (A : Type) : Type :=
| Returned (a : A)
| Thrown (e : JsError).
Arguments Returned {A} a.
Arguments Thrown {A} e.

(** ** The transport, the notifications and the queued commands *)

(** The [ws] WebSocket object, as far as the class touches it: the
    [readyState] it reads, and a record of the [send] and [close] calls it
    makes. *)
Record WebSocket : Type := mkWebSocket {
  url : string;
  readyState : Z;
  sent : list Json.object;
  closeCalls : nat
}.

Definition ws_send (data : Json.object) (w : WebSocket) : WebSocket :=
  mkWebSocket (url w) (readyState w) (sent w ++ [data]) (closeCalls w).

Definition ws_close (w : WebSocket) : WebSocket :=
  mkWebSocket (url w) (readyState w) (sent w) (S (closeCalls w)).

(** [new WebSocket(path, ...)]: the socket starts in CONNECTING (0). *)
Definition ws_new (path : string) : WebSocket := mkWebSocket path 0 [] 0.

(** The transport-level "open": the socket is in OPEN (1). *)
Definition ws_opened (w : WebSocket) : WebSocket :=
  mkWebSocket (url w) 1 (sent w) (closeCalls w).

(** What [this.emit] was called with. *)
Inductive Emitted : Type :=
| EvSubscriptions (keys : list string)
| EvSocketNotReady (message : string)
| EvReconnect (message : string)
| EvError.

(** A function pushed on [queueProcessor]: each one sends one frame whose
    [type] and [topic] were fixed when it was pushed and whose [id] is
    read from the clock when it runs. *)
Record Job : Type := mkJob { jobType : string; jobTopic : string }.

(** Callbacks handed to the timers of the runtime. *)
Inductive Timer : Type :=
| TimerReconnect     (* reconnect(), waiting in delay(retryTimeoutMs) *)
| TimerRestart.      (* setTimeout(() => restartPreviousSubscriptions(), ...) *)

(** ** The token endpoint's answer *)

Record InstanceServer : Type := mkServer { endpoint : string; pingInterval : Z }.

Record PublicTokenData : Type := mkTokenData {
  token : option string;
  instanceServers : list InstanceServer
}.

Record PublicToken : Type := mkPublicToken { data : option PublicTokenData }.

(** The [await got.post(...).json()] either rejects (endpoint unreachable,
    error status, body that is not JSON) or resolves to a response. *)
Inductive TokenOutcome : Type :=
| GotRejected
| GotResolved (response : PublicToken).

(** The two awaits of [openWebsocketConnection]: either both the "open"
    and the "welcome" arrive, or the promise stays pending. *)
Inductive Handshake : Type :=
| Welcomed
| Stalled.

Inductive Promise : Type :=
| Resolved
| Rejected (e : JsError)
| Pending.

(** ** The connection class *)

(** The fields of the class, under their names.  Three entries stand for
    what the class reaches through other objects: [candleCache] for the
    Feed Keys whose last candle the event handler has cached (all that
    [clearCandleCache] and [deleteCandleCache] act on), [emitted] for the
    calls of [this.emit] in order, each with its argument as it was at the
    call, and [timers] for the callbacks waiting in the runtime. *)
Record Client : Type := mkClient {
  ws : option WebSocket;
  socketOpen : bool;
  socketConnecting : bool;
  askingClose : bool;
  connectId : string;
  pingIntervalMs : Z;
  pingTimer : option Z;
  wsPath : string;
  subscriptions : list string;
  queueProcessor : list Job;
  candleCache : list string;
  emitted : list Emitted;
  timers : list Timer
}.

Definition set_ws v (s : Client) : Client :=
  mkClient v (socketOpen s) (socketConnecting s) (askingClose s) (connectId s)
    (pingIntervalMs s) (pingTimer s) (wsPath s) (subscriptions s)
    (queueProcessor s) (candleCache s) (emitted s) (timers s).
Definition set_socketOpen v (s : Client) : Client :=
  mkClient (ws s) v (socketConnecting s) (askingClose s) (connectId s)
    (pingIntervalMs s) (pingTimer s) (wsPath s) (subscriptions s)
    (queueProcessor s) (candleCache s) (emitted s) (timers s).
Definition set_socketConnecting v (s : Client) : Client :=
  mkClient (ws s) (socketOpen s) v (askingClose s) (connectId s)
    (pingIntervalMs s) (pingTimer s) (wsPath s) (subscriptions s)
    (queueProcessor s) (candleCache s) (emitted s) (timers s).
Definition set_askingClose v (s : Client) : Client :=
  mkClient (ws s) (socketOpen s) (socketConnecting s) v (connectId s)
    (pingIntervalMs s) (pingTimer s) (wsPath s) (subscriptions s)
    (queueProcessor s) (candleCache s) (emitted s) (timers s).
Definition set_connectId v (s : Client) : Client :=
  mkClient (ws s) (socketOpen s) (socketConnecting s) (askingClose s) v
    (pingIntervalMs s) (pingTimer s) (wsPath s) (subscriptions s)
    (queueProcessor s) (candleCache s) (emitted s) (timers s).
Definition set_pingIntervalMs v (s : Client) : Client :=
  mkClient (ws s) (socketOpen s) (socketConnecting s) (askingClose s) (connectId s)
    v (pingTimer s) (wsPath s) (subscriptions s)
    (queueProcessor s) (candleCache s) (emitted s) (timers s).
Definition set_pingTimer v (s : Client) : Client :=
  mkClient (ws s) (socketOpen s) (socketConnecting s) (askingClose s) (connectId s)
    (pingIntervalMs s) v (wsPath s) (subscriptions s)
    (queueProcessor s) (candleCache s) (emitted s) (timers s).
Definition set_wsPath v (s : Client) : Client :=
  mkClient (ws s) (socketOpen s) (socketConnecting s) (askingClose s) (connectId s)
    (pingIntervalMs s) (pingTimer s) v (subscriptions s)
    (queueProcessor s) (candleCache s) (emitted s) (timers s).
Definition set_subscriptions v (s : Client) : Client :=
  mkClient (ws s) (socketOpen s) (socketConnecting s) (askingClose s) (connectId s)
    (pingIntervalMs s) (pingTimer s) (wsPath s) v
    (queueProcessor s) (candleCache s) (emitted s) (timers s).
Definition set_queueProcessor v (s : Client) : Client :=
  mkClient (ws s) (socketOpen s) (socketConnecting s) (askingClose s) (connectId s)
    (pingIntervalMs s) (pingTimer s) (wsPath s) (subscriptions s)
    v (candleCache s) (emitted s) (timers s).
Definition set_candleCache v (s : Client) : Client :=
  mkClient (ws s) (socketOpen s) (socketConnecting s) (askingClose s) (connectId s)
    (pingIntervalMs s) (pingTimer s) (wsPath s) (subscriptions s)
    (queueProcessor s) v (emitted s) (timers s).
Definition set_emitted v (s : Client) : Client :=
  mkClient (ws s) (socketOpen s) (socketConnecting s) (askingClose s) (connectId s)
    (pingIntervalMs s) (pingTimer s) (wsPath s) (subscriptions s)
    (queueProcessor s) (candleCache s) v (timers s).
Definition set_timers v (s : Client) : Client :=
  mkClient (ws s) (socketOpen s) (socketConnecting s) (askingClose s) (connectId s)
    (pingIntervalMs s) (pingTimer s) (wsPath s) (subscriptions s)
    (queueProcessor s) (candleCache s) (emitted s) v.

(** Methods of the class: state in, outcome and state out. *)
Definition M (A : Type) : Type := Client -> Outcome A * Client.

Definition ret {A} (a : A) : M A := fun s => (Returned a, s).
Definition throw {A} (e : JsError) : M A := fun s => (Thrown e, s).
Definition bind {A B} (m : M A) (k : A -> M B) : M B :=
  fun s => match m s with
           | (Returned a, s') => k a s'
           | (Thrown e, s') => (Thrown e, s')
           end.
Definition get {A} (f : Client -> A) : M A := fun s => (Returned (f s), s).
Definition modify (f : Client -> Client) : M unit := fun s => (Returned tt, f s).

Declare Scope js_scope.
Delimit Scope js_scope with js.
Notation "x <- m ;; k" := (bind m (fun x => k))
  (at level 61, m at next level, right associativity) : js_scope.
Notation "m ;; k" := (bind m (fun _ => k))
  (at level 61, right associativity) : js_scope.
Local Open Scope js_scope.

Definition emit (e : Emitted) : M unit :=
  modify (fun s => set_emitted (emitted s ++ [e]) s).

Module Connection.

(** [constructor()]: the fields the constructor and the field
    initialisers set; the others are undefined, which the boolean and
    optional fields read as false and absent. *)
Definition new : Client :=
  mkClient None false false false "" 0 None "" [] [] [] [] [].

(** The frame a queued command serialises when it runs at clock [now]. *)
Definition commandFrame (now : Z) (j : Job) : Json.object :=
  [ ("id", Json.Num now);
    ("type", Json.Str (jobType j));
    ("topic", Json.Str (jobTopic j));
    ("privateChannel", Json.Bool false);
    ("response", Json.Bool true) ].

(** The frame of [sendPing]. *)
Definition pingFrame (now : Z) : Json.object :=
  [ ("id", Json.Num now); ("type", Json.Str "ping") ].

(** [send(data)]: dropped when the transport is absent. *)
Definition send (data : Json.object) : M unit :=
  fun s => match ws s with
           | None => (Returned tt, s)
           | Some w => (Returned tt, set_ws (Some (ws_send data w)) s)
           end.

(** [this.queueProcessor.push(job)]: the function joins the functions
    that wait.  The queue is created with [autostart]: an idle queue runs
    the function it is given at once, which is a run of the queue right
    after the push ([queueRun] below).  What the transport's own [send]
    may throw from inside such a run is not part of this embedding: no
    statement of this file speaks of a push on a transport that refuses
    the frame. *)
Definition queuePush (j : Job) : M unit :=
  modify (fun s => set_queueProcessor (queueProcessor s ++ [j]) s).

(** The queue runs its oldest function, at clock [now]. *)
Definition queueRun (now : Z) : M unit :=
  fun s => match queueProcessor s with
           | [] => (Returned tt, s)
           | j :: q => send (commandFrame now j) (set_queueProcessor q s)
           end.

Definition requireSocketToBeOpen : M unit :=
  fun s => if negb (socketOpen s) then (Thrown NotConnectedError, s)
           else (Returned tt, s).

(** [this.ws.readyState], which throws when [this.ws] is undefined. *)
Definition wsReadyState : M Z :=
  fun s => match ws s with
           | None => (Thrown UndefinedAccessError, s)
           | Some w => (Returned (readyState w), s)
           end.

Definition tickerKey (symbol : string) : string := "ticker-" ++ symbol.

Definition candleKey (symbol interval : string) : string :=
  "candle-" ++ symbol ++ "-" ++ interval.

Definition tickerTopic (symbol : string) : string :=
  "/market/ticker:" ++ Js.replace "/" "-" symbol.

Definition subscribeTicker (symbol : string) : M unit :=
  requireSocketToBeOpen ;;
  let indexSubscription := tickerKey symbol in
  subs <- get subscriptions ;;
  if Js.includes subs indexSubscription then ret tt
  else
    modify (fun s => set_subscriptions (subscriptions s ++ [indexSubscription]) s) ;;
    now_subs <- get subscriptions ;;
    emit (EvSubscriptions now_subs) ;;
    rs <- wsReadyState ;;
    if (rs =? 0)%Z then
      emit (EvSocketNotReady ("socket not ready to subscribe ticker for: " ++ symbol))
    else
      queuePush (mkJob "subscribe" (tickerTopic symbol)).

Definition unsubscribeTicker (symbol : string) : M unit :=
  requireSocketToBeOpen ;;
  let indexSubscription := tickerKey symbol in
  subs <- get subscriptions ;;
  if negb (Js.includes subs indexSubscription) then ret tt
  else
    queuePush (mkJob "unsubscribe" (tickerTopic symbol)) ;;
    modify (fun s => set_subscriptions (Js.remove (subscriptions s) indexSubscription) s) ;;
    now_subs <- get subscriptions ;;
    emit (EvSubscriptions now_subs).

Section Intervals.

(** [mapCandleInterval[interval]] of [./const], which is not part of
    the sources at hand: the table is a parameter, [None] standing for
    the [undefined] of an absent label. *)
Variable mapCandleInterval : string -> option string.

Definition candleTopic (symbol : string) (formatInterval : option string) : string :=
  "/market/candles:" ++ Js.replace "/" "-" symbol ++ "_" ++ Js.show formatInterval.

Definition subscribeCandle (symbol interval : string) : M unit :=
  requireSocketToBeOpen ;;
  let formatInterval := mapCandleInterval interval in
  if negb (Js.truthy formatInterval) then throw InvalidIntervalError
  else
    let indexSubscription := candleKey symbol interval in
    subs <- get subscriptions ;;
    if Js.includes subs indexSubscription then ret tt
    else
      modify (fun s => set_subscriptions (subscriptions s ++ [indexSubscription]) s) ;;
      now_subs <- get subscriptions ;;
      emit (EvSubscriptions now_subs) ;;
      rs <- wsReadyState ;;
      if (rs =? 0)%Z then
        emit (EvSocketNotReady
                ("socket not ready to subscribe candle for: " ++ symbol ++ " " ++ interval))
      else
        queuePush (mkJob "subscribe" (candleTopic symbol formatInterval)).

Definition unsubscribeCandle (symbol interval : string) : M unit :=
  requireSocketToBeOpen ;;
  let formatInterval := mapCandleInterval interval in
  if negb (Js.truthy formatInterval) then throw InvalidIntervalError
  else
    let indexSubscription := candleKey symbol interval in
    subs <- get subscriptions ;;
    if negb (Js.includes subs indexSubscription) then ret tt
    else
      queuePush (mkJob "unsubscribe" (candleTopic symbol formatInterval)) ;;
      modify (fun s => set_subscriptions (Js.remove (subscriptions s) indexSubscription) s) ;;
      (* eventHandler.deleteCandleCache(indexSubscription) *)
      modify (fun s => set_candleCache (Js.remove (candleCache s) indexSubscription) s) ;;
      now_subs <- get subscriptions ;;
      emit (EvSubscriptions now_subs).

(** The body of the [for ... of previousSubs] loop: the key is split
    at every '-', and the first three pieces are taken as type,
    symbol and time frame.  A piece that is missing is [undefined]:
    [symbol.replace] then throws, and an undefined time frame is
    looked up and printed as "undefined". *)
Definition restartOne (subscription : string) : M unit :=
  let parts := Js.split "-" subscription in
  let type := nth_error parts 0 in
  let symbol := nth_error parts 1 in
  let timeFrame := nth_error parts 2 in
  (if match type with Some t => String.eqb t "ticker" | None => false end
   then match symbol with
        | Some sym => subscribeTicker sym
        | None => requireSocketToBeOpen ;; throw UndefinedAccessError
        end
   else ret tt) ;;
  (if match type with Some t => String.eqb t "candle" | None => false end
   then match symbol with
        | Some sym => subscribeCandle sym (Js.show timeFrame)
        | None => requireSocketToBeOpen ;; throw UndefinedAccessError
        end
   else ret tt).

Fixpoint restartEach (previousSubs : list string) : M unit :=
  match previousSubs with
  | [] => ret tt
  | subscription :: rest => restartOne subscription ;; restartEach rest
  end.

Definition restartPreviousSubscriptions : M unit :=
  open <- get socketOpen ;;
  if negb open then ret tt
  else
    rs <- wsReadyState ;;
    if (rs =? 0)%Z then
      emit (EvSocketNotReady "retry later to restart previous subscriptions") ;;
      modify (fun s => set_timers (timers s ++ [TimerRestart]) s)
    else
      previousSubs <- get subscriptions ;;
      modify (set_subscriptions []) ;;
      restartEach previousSubs.

(** [startPing] and [stopPing]: the interval timer, present or not. *)
Definition startPing (s : Client) : Client :=
  set_pingTimer (Some (pingIntervalMs s)) s.

Definition stopPing (s : Client) : Client := set_pingTimer None s.

(** The handler of the transport's "close" event. *)
Definition onClose (s : Client) : Client :=
  let s := set_queueProcessor [] s in
  let s := set_socketOpen false s in
  let s := stopPing s in
  let s := set_ws None s in
  if negb (askingClose s) then set_timers (timers s ++ [TimerReconnect]) s
  else s.

(** The handler of the transport's "error" event: the error is emitted
    again, no field changes. *)
Definition onError : M unit := emit EvError.

(** [openWebsocketConnection()], run without anything else in between.
    The method waits twice, for the transport's "open" and for the
    welcome; [Welcomed] is the run in which both arrive before any other
    call or event, [Stalled] the run that is still waiting.  What the
    method does once the welcome arrives, whatever has happened to the
    connection while it waited, is [Session.handshakeCompleted]. *)
Definition openWebsocketConnection (hs : Handshake) (s : Client) : Promise * Client :=
  if socketOpen s then (Resolved, s)
  else
    let s := set_ws (Some (ws_new (wsPath s))) s in
    match hs with
    | Stalled => (Pending, s)
    | Welcomed =>
        let s := set_ws (option_map ws_opened (ws s)) s in
        let s := set_socketOpen true s in
        let s := set_socketConnecting false s in
        (Resolved, startPing s)
    end.

(** [connect()] up to its first await: the flag is raised and the
    token request is on its way. *)
Definition connectBegin (s : Client) : Client := set_socketConnecting true s.

(** [connect()] from its first await on.  [tok] is how the token
    request ends, [cid] the hexadecimal string [randomBytes] gives,
    [hs] how the handshake ends. *)
Definition connectResume (tok : TokenOutcome) (cid : string) (hs : Handshake)
           (s : Client) : Promise * Client :=
  match tok with
  | GotRejected => (Rejected RequestError, s)
  | GotResolved response =>
      match data response with
      | None => (Rejected TokenAcquisitionError, set_socketConnecting false s)
      | Some d =>
          if negb (Js.truthy (token d))
          then (Rejected TokenAcquisitionError, set_socketConnecting false s)
          else
            match instanceServers d with
            | [] => (Rejected UndefinedAccessError, s)
            | server :: _ =>
                let s := set_askingClose false s in
                let s := set_candleCache [] s in
                let s := set_connectId cid s in
                let s := set_pingIntervalMs (pingInterval server) s in
                let s := set_wsPath (endpoint server ++ "?token=" ++ Js.show (token d)
                                       ++ "&connectId=" ++ cid) s in
                match openWebsocketConnection hs s with
                | (Resolved, s) =>
                    if (0 <? length (subscriptions s))%nat then
                      match restartPreviousSubscriptions s with
                      | (Returned _, s) => (Resolved, s)
                      | (Thrown e, s) => (Rejected e, s)
                      end
                    else (Resolved, s)
                | other => other
                end
            end
      end
  end.

Definition connect (tok : TokenOutcome) (cid : string) (hs : Handshake)
           (s : Client) : Promise * Client :=
  connectResume tok cid hs (connectBegin s).

(** [reconnect()] once its delay has elapsed. *)
Definition reconnect (tok : TokenOutcome) (cid : string) (hs : Handshake)
           (s : Client) : Client :=
  let s := set_emitted
             (emitted s ++ [EvReconnect ("reconnect with "
                                         ++ Js.of_nat (length (subscriptions s))
                                         ++ " sockets...")]) s in
  snd (connect tok cid hs s).

End Intervals.

Definition closeConnection : M unit :=
  subs <- get subscriptions ;;
  if (0 <? length subs)%nat then throw ActiveSubscriptionsError
  else
    modify (set_askingClose true) ;;
    fun s => match ws s with
             | None => (Thrown UndefinedAccessError, s)
             | Some w => (Returned tt, set_ws (Some (ws_close w)) s)
             end.

Definition isSocketOpen (s : Client) : bool := socketOpen s.
Definition isSocketConnecting (s : Client) : bool := socketConnecting s.
Definition getSubscriptionNumber (s : Client) : nat := length (subscriptions s).

Definition sendPing (now : Z) : M unit :=
  requireSocketToBeOpen ;;
  send (pingFrame now).

End Connection.

(** The state a method leaves, and how it ends. *)
Definition run {A} (m : M A) (s : Client) : Client := snd (m s).
Definition outcome {A} (m : M A) (s : Client) : Outcome A := fst (m s).

(** A Feed Key that the replay loop reads back as it was written: a
    ticker key whose symbol has no '-', or a candle key whose symbol and
    interval have no '-' and whose interval the table maps to a code. *)
Inductive Replayable (mapCandleInterval : string -> option string) : string -> Prop :=
| ReplayableTicker (symbol : string) :
    Js.has "-" symbol = false ->
    Replayable mapCandleInterval (Connection.tickerKey symbol)
| ReplayableCandle (symbol interval : string) :
    Js.has "-" symbol = false ->
    Js.has "-" interval = false ->
    Js.truthy (mapCandleInterval interval) = true ->
    Replayable mapCandleInterval (Connection.candleKey symbol interval).

(** ** The router class *)

(** The router creates its connections with [new Client(...)], the class
    of [./client], which is not among the sources.  In this module the
    connection class above stands for it: its [subscribeTicker],
    [unsubscribeTicker], [subscribeCandle], [unsubscribeCandle],
    [closeConnection], [connect] and [getSubscriptionNumber] are the
    Connection of the specification.  [Sharding], further down, is the
    same router over any class at all. *)

Module Router.

Definition maxSubscriptions : nat := 98.

(** Modelled from the spec: [Client.getSubscriptions] is called by the
    router but is not defined in the connection class at hand; it is the
    connection's current list of Feed Keys. *)
Definition getSubscriptions (c : Client) : list string := subscriptions c.

(** Modelled from the spec: [getTickerSubscriptionKey] and
    [getCandleSubscriptionKey] of [./util] are not among the sources;
    the Feed Key is the one the connection itself stores. *)
Definition getTickerSubscriptionKey (symbol : string) : string :=
  Connection.tickerKey symbol.

Definition getCandleSubscriptionKey (symbol interval : string) : string :=
  Connection.candleKey symbol interval.

(** The router's only field that the methods change: [clientList].  A
    client is a mutable object: the router's methods name it by its
    position in the list and write its new state back there. *)
Definition R (A : Type) : Type := list Client -> Outcome A * list Client.

Fixpoint update (i : nat) (c : Client) (l : list Client) : list Client :=
  match l, i with
  | [], _ => []
  | _ :: r, O => c :: r
  | a :: r, S j => a :: update j c r
  end.

(** Call method [m] on the client at position [i]. *)
Definition onClient (i : nat) (m : M unit) : R unit :=
  fun l => match nth_error l i with
           | None => (Thrown UndefinedAccessError, l)
           | Some c => let (o, c') := m c in (o, update i c' l)
           end.

Definition holds (key : string) (client : Client) : bool :=
  Js.includes (getSubscriptions client) key.

(** [this.clientList.find(...)], as a position. *)
Fixpoint findIndex (p : Client -> bool) (l : list Client) : option nat :=
  match l with
  | [] => None
  | c :: r => if p c then Some O else option_map S (findIndex p r)
  end.

(** [getLastClient()]: the position of the client it returns, and the
    list after the possible [push].  The new client's [connect()] is
    called and not awaited: only its synchronous start has run when
    [getLastClient] returns. *)
Definition getLastClient (l : list Client) : nat * list Client :=
  match nth_error l (length l - 1) with
  | Some lastClient =>
      if (maxSubscriptions <=? Connection.getSubscriptionNumber lastClient)%nat
      then (length l, (l ++ [Connection.connectBegin Connection.new])%list)
      else (length l - 1, l)
  | None => (length l, (l ++ [Connection.connectBegin Connection.new])%list)
  end.

Definition connect : R unit :=
  fun l => (Returned tt, snd (getLastClient l)).

Definition subscribeTicker (symbol : string) : R unit :=
  fun l =>
    let alreadySubscribed := existsb (holds (getTickerSubscriptionKey symbol)) l in
    if alreadySubscribed then (Returned tt, l)
    else let (i, l') := getLastClient l in
         onClient i (Connection.subscribeTicker symbol) l'.

(** [symbols.forEach(...)]: a throw ends the loop. *)
Fixpoint forEach {A} (f : A -> R unit) (xs : list A) : R unit :=
  fun l => match xs with
           | [] => (Returned tt, l)
           | x :: rest => match f x l with
                          | (Returned _, l') => forEach f rest l'
                          | (Thrown e, l') => (Thrown e, l')
                          end
           end.

Definition subscribeTickers (symbols : list string) : R unit :=
  forEach subscribeTicker symbols.

Definition unsubscribeTicker (symbol : string) : R unit :=
  fun l =>
    let alreadySubscribed := existsb (holds (getTickerSubscriptionKey symbol)) l in
    if negb alreadySubscribed then (Returned tt, l)
    else match findIndex (holds (getTickerSubscriptionKey symbol)) l with
         | Some i => onClient i (Connection.unsubscribeTicker symbol) l
         | None => (Thrown UndefinedAccessError, l)
         end.

Definition unsubscribeTickers (symbols : list string) : R unit :=
  forEach unsubscribeTicker symbols.

Section Intervals.

Variable mapCandleInterval : string -> option string.

Definition subscribeCandle (symbol interval : string) : R unit :=
  fun l =>
    let alreadySubscribed :=
      existsb (holds (getCandleSubscriptionKey symbol interval)) l in
    if alreadySubscribed then (Returned tt, l)
    else let (i, l') := getLastClient l in
         onClient i (Connection.subscribeCandle mapCandleInterval symbol interval) l'.

Definition unsubscribeCandle (symbol interval : string) : R unit :=
  fun l =>
    let alreadySubscribed :=
      existsb (holds (getCandleSubscriptionKey symbol interval)) l in
    if negb alreadySubscribed then (Returned tt, l)
    else match findIndex (holds (getCandleSubscriptionKey symbol interval)) l with
         | Some i =>
             onClient i (Connection.unsubscribeCandle mapCandleInterval symbol interval) l
         | None => (Thrown UndefinedAccessError, l)
         end.

(** The pending [connect()] of every client that has one comes to its
    end: the caller has waited long enough. *)
Definition settle (tok : TokenOutcome) (cid : string) (hs : Handshake)
           (l : list Client) : list Client :=
  map (fun c => if socketConnecting c && negb (socketOpen c)
                then snd (Connection.connectResume mapCandleInterval tok cid hs c)
                else c) l.

(** A caller that issues one [subscribeTicker] per symbol, catches
    what the call throws, and lets the pending connects finish before
    the next call. *)
Fixpoint patientSubscribe (tok : TokenOutcome) (cid : string)
         (symbols : list string) (l : list Client) : list Client :=
  match symbols with
  | [] => l
  | symbol :: rest =>
      patientSubscribe tok cid rest (settle tok cid Welcomed (snd (subscribeTicker symbol l)))
  end.

End Intervals.

Definition closeConnection : R unit :=
  fun l =>
    (fix go (i : nat) (n : nat) (l : list Client) : Outcome unit * list Client :=
       match n with
       | O => (Returned tt, l)
       | S n' => match onClient i Connection.closeConnection l with
                 | (Returned _, l') => go (S i) n' l'
                 | (Thrown e, l') => (Thrown e, l')
                 end
       end) O (length l) l.

Definition isSocketOpen (l : list Client) : bool :=
  forallb Connection.isSocketOpen l.

Definition isSocketConnecting (l : list Client) : bool :=
  existsb Connection.isSocketConnecting l.

Definition getSubscriptionNumber (l : list Client) : nat :=
  fold_left (fun acc client => acc + Connection.getSubscriptionNumber client)%nat l 0%nat.

(** All the Feed Keys of a router, connection after connection: what
    [emitSubscriptions] concatenates. *)
Definition allSubscriptions (l : list Client) : list string :=
  concat (map getSubscriptions l).

(** The per-connection counts, in list order. *)
Definition counts (l : list Client) : list nat :=
  map Connection.getSubscriptionNumber l.

End Router.

(** ** The router over any connection class *)

Module Sharding.

Section OverClient.

(** Modelled from the spec: the class [Client] of [./client], which the
    router creates and calls, is not among the sources.  It is a
    parameter: a type [K] of connections, the connection [new Client(...)]
    gives, what the [connect()] that the router calls and does not await
    has done to it when the router goes on, and the three methods the
    router calls for a ticker. *)
Variable K : Type.
Variable newClient : K.
Variable connectStarted : K -> K.
Variable clientSubscribeTicker : string -> K -> Outcome unit * K.
Variable getSubscriptions : K -> list string.
Variable getSubscriptionNumber : K -> nat.

Fixpoint update (i : nat) (c : K) (l : list K) : list K :=
  match l, i with
  | [], _ => []
  | _ :: r, O => c :: r
  | a :: r, S j => a :: update j c r
  end.

Definition onClient (i : nat) (m : K -> Outcome unit * K) (l : list K)
  : Outcome unit * list K :=
  match nth_error l i with
  | None => (Thrown UndefinedAccessError, l)
  | Some c => let (o, c') := m c in (o, update i c' l)
  end.

Definition holds (key : string) (client : K) : bool :=
  Js.includes (getSubscriptions client) key.

(** [getLastClient()], as in [Router]. *)
Definition getLastClient (l : list K) : nat * list K :=
  match nth_error l (length l - 1) with
  | Some lastClient =>
      if (Router.maxSubscriptions <=? getSubscriptionNumber lastClient)%nat
      then (length l, (l ++ [connectStarted newClient])%list)
      else (length l - 1, l)
  | None => (length l, (l ++ [connectStarted newClient])%list)
  end.

Definition subscribeTicker (symbol : string) (l : list K) : Outcome unit * list K :=
  let alreadySubscribed := existsb (holds (Router.getTickerSubscriptionKey symbol)) l in
  if alreadySubscribed then (Returned tt, l)
  else let (i, l') := getLastClient l in
       onClient i (clientSubscribeTicker symbol) l'.

(** [symbols.forEach((symbol) => this.subscribeTicker(symbol))]. *)
Fixpoint subscribeTickers (symbols : list string) (l : list K)
  : Outcome unit * list K :=
  match symbols with
  | [] => (Returned tt, l)
  | symbol :: rest =>
      match subscribeTicker symbol l with
      | (Returned _, l') => subscribeTickers rest l'
      | (Thrown e, l') => (Thrown e, l')
      end
  end.


Definition counts (l : list K) : list nat := map getSubscriptionNumber l.

End OverClient.

End Sharding.

(** ** A table of intervals and a token answer, for running the model *)

Module Sample.

(** Modelled from the spec: the table [mapCandleInterval] of [./const]
    is not among the sources; these are the labels the specification
    names (1m, 5m, 15m, 1h) with the exchange's codes for them. *)
Definition mapCandleInterval (interval : string) : option string :=
  if String.eqb interval "1m" then Some "1min"
  else if String.eqb interval "5m" then Some "5min"
  else if String.eqb interval "15m" then Some "15min"
  else if String.eqb interval "1h" then Some "1hour"
  else None.

Definition server : InstanceServer :=
  mkServer "wss://ws-api.kucoin.com/endpoint" 18000.

Definition tokenOk : TokenOutcome :=
  GotResolved (mkPublicToken (Some (mkTokenData (Some "tkn") [server]))).

Definition cid : string := "00ff".

(** A connection after one successful [connect()]. *)
Definition opened : Client :=
  snd (Connection.connect mapCandleInterval tokenOk cid Welcomed Connection.new).

(** [n] distinct symbols: SYM0/USDT, SYM1/USDT, ... *)
Definition symbols (n : nat) : list string :=
  map (fun i => "SYM" ++ Js.of_nat i ++ "/USDT") (seq 0 n).

End Sample.


(** ** Sequences of calls and events *)

Module Session.

(** What the owner of a connection can call on it. *)
Inductive Call : Type :=
| CallConnect (tok : TokenOutcome) (cid : string) (hs : Handshake)
| CallSubscribeTicker (symbol : string)
| CallUnsubscribeTicker (symbol : string)
| CallSubscribeCandle (symbol interval : string)
| CallUnsubscribeCandle (symbol interval : string)
| CallCloseConnection.

(** What the runtime can run on a connection between two calls: the
    handlers of the transport, the continuations of a pending [connect()]
    at each of its awaits, and the callbacks of the timers and of the
    queue.  [ConnectResumed] is the continuation from the token await
    (with [Stalled] it stops at the handshake, with [Welcomed] it runs
    through); [HandshakeCompleted] is the continuation from the welcome,
    for a [connect()] that was waiting for it; [TransportState] is the
    transport of [this.ws] moving to another [readyState]. *)
Inductive Event : Type :=
| TransportClosed
| TransportError
| TransportState (n : Z)
| ConnectResumed (tok : TokenOutcome) (cid : string) (hs : Handshake)
| HandshakeCompleted
| ReconnectDue (tok : TokenOutcome) (cid : string) (hs : Handshake)
| RestartDue
| PingDue (now : Z)
| QueueDue (now : Z).

Inductive Step : Type :=
| Called (c : Call)
| Happened (e : Event).

(** The transport that [this.ws] holds, if any, is in [readyState] [n]. *)
Definition transportState (n : Z) (s : Client) : Client :=
  set_ws (option_map (fun w => mkWebSocket (url w) n (sent w) (closeCalls w)) (ws s)) s.

Section Intervals.

Variable mapCandleInterval : string -> option string.

(** [openWebsocketConnection()] from the arrival of the welcome on, and
    the end of [connect()] after it: the flag is raised, on whatever
    [this.ws] holds by then, the ping timer is started, and the keys, if
    there are any, are replayed. *)
Definition handshakeCompleted (s : Client) : Promise * Client :=
  let s := set_socketOpen true s in
  let s := set_socketConnecting false s in
  let s := Connection.startPing s in
  if (0 <? length (subscriptions s))%nat then
    match Connection.restartPreviousSubscriptions mapCandleInterval s with
    | (Returned _, s) => (Resolved, s)
    | (Thrown e, s) => (Rejected e, s)
    end
  else (Resolved, s).

(** The state a call leaves, whether it returns or throws. *)
Definition call (c : Call) (s : Client) : Client :=
  match c with
  | CallConnect tok cid hs => snd (Connection.connect mapCandleInterval tok cid hs s)
  | CallSubscribeTicker symbol => run (Connection.subscribeTicker symbol) s
  | CallUnsubscribeTicker symbol => run (Connection.unsubscribeTicker symbol) s
  | CallSubscribeCandle symbol interval =>
      run (Connection.subscribeCandle mapCandleInterval symbol interval) s
  | CallUnsubscribeCandle symbol interval =>
      run (Connection.unsubscribeCandle mapCandleInterval symbol interval) s
  | CallCloseConnection => run Connection.closeConnection s
  end.

(** The state an event leaves.  No order is imposed on the events: a
    timer may fire whether or not it was set, a continuation may run
    whether or not a [connect()] is waiting, and the "close" of any
    transport the connection ever created runs the same handler. *)
Definition handle (e : Event) (s : Client) : Client :=
  match e with
  | TransportClosed => Connection.onClose s
  | TransportError => run Connection.onError s
  | TransportState n => transportState n s
  | ConnectResumed tok cid hs =>
      snd (Connection.connectResume mapCandleInterval tok cid hs s)
  | HandshakeCompleted => snd (handshakeCompleted s)
  | ReconnectDue tok cid hs => Connection.reconnect mapCandleInterval tok cid hs s
  | RestartDue => run (Connection.restartPreviousSubscriptions mapCandleInterval) s
  | PingDue now => run (Connection.sendPing now) s
  | QueueDue now => run (Connection.queueRun now) s
  end.

Definition step (x : Step) (s : Client) : Client :=
  match x with
  | Called c => call c s
  | Happened e => handle e s
  end.

(** The connection after a sequence of calls and events on a new one. *)
Definition after (steps : list Step) : Client :=
  fold_left (fun s x => step x s) steps Connection.new.

End Intervals.

(** The queue runs once per clock reading, oldest function first. *)
Fixpoint drain (clocks : list Z) (s : Client) : Client :=
  match clocks with
  | [] => s
  | now :: rest => drain rest (run (Connection.queueRun now) s)
  end.

End Session.

(** The frame the replay loop pushes for a Feed Key it reads back as it
    was written. *)
Inductive ReplayJob (mapCandleInterval : string -> option string) : string -> Job -> Prop :=
| ReplayJobTicker (symbol : string) :
    Js.has "-" symbol = false ->
    ReplayJob mapCandleInterval (Connection.tickerKey symbol)
      (mkJob "subscribe" (Connection.tickerTopic symbol))
| ReplayJobCandle (symbol interval : string) :
    Js.has "-" symbol = false ->
    Js.has "-" interval = false ->
    Js.truthy (mapCandleInterval interval) = true ->
    ReplayJob mapCandleInterval (Connection.candleKey symbol interval)
      (mkJob "subscribe" (Connection.candleTopic symbol (mapCandleInterval interval))).

(** ** Sequences of calls and events on a router *)

Module Fleet.

(** The calls of the router's owner, and the events of the runtime on the
    connection at a position of the list. *)
Inductive Step : Type :=
| CallConnect
| CallSubscribeTicker (symbol : string)
| CallUnsubscribeTicker (symbol : string)
| CallSubscribeCandle (symbol interval : string)
| CallUnsubscribeCandle (symbol interval : string)
| CallCloseConnection
| ClientEvent (i : nat) (e : Session.Event).

(** The loop of the router's [closeConnection], from position [i], for
    [n] connections. *)
Fixpoint closeFrom (i n : nat) (l : list Client) : Outcome unit * list Client :=
  match n with
  | O => (Returned tt, l)
  | S n' => match Router.onClient i Connection.closeConnection l with
            | (Returned _, l') => closeFrom (S i) n' l'
            | (Thrown e, l') => (Thrown e, l')
            end
  end.

Section Intervals.

Variable mapCandleInterval : string -> option string.

Definition step (x : Step) (l : list Client) : list Client :=
  match x with
  | CallConnect => snd (Router.connect l)
  | CallSubscribeTicker symbol => snd (Router.subscribeTicker symbol l)
  | CallUnsubscribeTicker symbol => snd (Router.unsubscribeTicker symbol l)
  | CallSubscribeCandle symbol interval =>
      snd (Router.subscribeCandle mapCandleInterval symbol interval l)
  | CallUnsubscribeCandle symbol interval =>
      snd (Router.unsubscribeCandle mapCandleInterval symbol interval l)
  | CallCloseConnection => snd (Router.closeConnection l)
  | ClientEvent i e =>
      match nth_error l i with
      | Some c => Router.update i (Session.handle mapCandleInterval e c) l
      | None => l
      end
  end.

(** The router after a sequence of calls and events on a new one. *)
Definition after (steps : list Step) : list Client :=
  fold_left (fun l x => step x l) steps [].

End Intervals.

End Fleet.

(** ** Predicates on connections and routers *)

(** The two facts that hold of a connection whatever happened to it:
    its subscription array has no duplicate, and no function waits in its
    queue while the flag is down. *)
Definition Coherent (s : Client) : Prop :=
  NoDup (subscriptions s) /\
  (socketOpen s = false -> queueProcessor s = []).

(** [s'] differs from [s] as a subscribe, an unsubscribe, a send or a
    close call can make it differ. *)
Definition Steady (s s' : Client) : Prop :=
  option_map readyState (ws s') = option_map readyState (ws s) /\
  socketOpen s' = socketOpen s /\
  (socketOpen s = false -> queueProcessor s = [] -> queueProcessor s' = []) /\
  (NoDup (subscriptions s) -> NoDup (subscriptions s')).

(** [s'] holds at most [n] keys more than [s]. *)
Definition Grows (n : nat) (s s' : Client) : Prop :=
  (length (subscriptions s') <= length (subscriptions s) + n)%nat.

(** [s'] has the transport, the flags, the ping timer and the identity
    of [s]. *)
Definition Untouched (s s' : Client) : Prop :=
  ws s' = ws s /\ socketOpen s' = socketOpen s /\
  socketConnecting s' = socketConnecting s /\ askingClose s' = askingClose s /\
  pingTimer s' = pingTimer s /\ connectId s' = connectId s.


(** Every connection of the list is within the router's capacity. *)
Definition WithinCapacity (l : list Client) : Prop :=
  Forall (fun c => (Connection.getSubscriptionNumber c <= Router.maxSubscriptions)%nat) l.


(** ** Connections and routers for running the model *)

Module Scenario.

(** An open connection holding a ticker and a candle feed. *)
Definition twoFeeds : Client :=
  run (Connection.subscribeCandle Sample.mapCandleInterval "BTC/USDT" "1m")
      (run (Connection.subscribeTicker "BTC/USDT") Sample.opened).

(** Two [connect()] calls that overlap: the first has its transport
    open and waits for the welcome, the second comes back from its token
    request and replaces the transport, then the welcome of the first
    arrives.  The flag is up on a transport that is still connecting. *)
Definition overlappingConnects : Client :=
  Session.after Sample.mapCandleInterval
    [Session.Called (Session.CallConnect Sample.tokenOk "aa01" Stalled);
     Session.Happened (Session.TransportState 1);
     Session.Called (Session.CallConnect Sample.tokenOk "bb02" Stalled);
     Session.Happened Session.HandshakeCompleted].

(** A router after [connect()], once its connection is open. *)
Definition router : list Client :=
  Router.settle Sample.mapCandleInterval Sample.tokenOk Sample.cid Welcomed
    (snd (Router.connect [])).

(** That router after a [subscribeTicker]. *)
Definition routerWithTicker : list Client :=
  snd (Router.subscribeTicker "BTC/USDT" router).

End Scenario.

(** * Properties *)

(** ** Unfolding the methods *)

Ltac js_unfold :=
  unfold Connection.subscribeTicker, Connection.unsubscribeTicker,
    Connection.subscribeCandle, Connection.unsubscribeCandle,
    Connection.closeConnection, Connection.sendPing, Connection.queueRun,
    Connection.queuePush, Connection.send, Connection.wsReadyState,
    Connection.requireSocketToBeOpen, emit, modify, get, throw, ret, bind,
    run, outcome.

Lemma includes_true_iff (l : list string) (k : string) :
  Js.includes l k = true <-> In k l.
Proof.
  unfold Js.includes. rewrite existsb_exists. split.
  - intros [x [Hin Heq]]. apply String.eqb_eq in Heq. now subst.
  - intros Hin. exists k. split; [assumption | apply String.eqb_refl].
Qed.

Lemma includes_false_iff (l : list string) (k : string) :
  Js.includes l k = false <-> ~ In k l.
Proof.
  rewrite <- includes_true_iff. destruct (Js.includes l k); split; congruence.
Qed.

Lemma includes_app (l1 l2 : list string) (k : string) :
  Js.includes (l1 ++ l2) k = Js.includes l1 k || Js.includes l2 k.
Proof. unfold Js.includes. apply existsb_app. Qed.

Lemma includes_single (k k' : string) :
  Js.includes [k'] k = String.eqb k k'.
Proof. unfold Js.includes. simpl. apply orb_false_r. Qed.

(** The four cases of [subscribeTicker], one equation. *)
Lemma subscribeTicker_eq (symbol : string) (s : Client) :
  Connection.subscribeTicker symbol s =
  if negb (socketOpen s) then (Thrown NotConnectedError, s)
  else if Js.includes (subscriptions s) (Connection.tickerKey symbol) then (Returned tt, s)
  else
    let keys := (subscriptions s ++ [Connection.tickerKey symbol])%list in
    let s1 := set_emitted (emitted s ++ [EvSubscriptions keys]) (set_subscriptions keys s) in
    match ws s with
    | None => (Thrown UndefinedAccessError, s1)
    | Some w =>
        if (readyState w =? 0)%Z
        then (Returned tt,
              set_emitted (emitted s1 ++ [EvSocketNotReady
                 ("socket not ready to subscribe ticker for: " ++ symbol)]) s1)
        else (Returned tt,
              set_queueProcessor
                (queueProcessor s ++ [mkJob "subscribe" (Connection.tickerTopic symbol)]) s1)
    end.
Proof.
  js_unfold. destruct (socketOpen s); simpl; [ | reflexivity].
  destruct (Js.includes (subscriptions s) (Connection.tickerKey symbol)); simpl;
    [reflexivity | ].
  destruct (ws s) as [w | ]; simpl; [ | reflexivity].
  destruct (readyState w =? 0)%Z; reflexivity.
Qed.

Lemma unsubscribeTicker_eq (symbol : string) (s : Client) :
  Connection.unsubscribeTicker symbol s =
  if negb (socketOpen s) then (Thrown NotConnectedError, s)
  else if negb (Js.includes (subscriptions s) (Connection.tickerKey symbol))
  then (Returned tt, s)
  else
    let keys := Js.remove (subscriptions s) (Connection.tickerKey symbol) in
    (Returned tt,
     set_emitted (emitted s ++ [EvSubscriptions keys])
       (set_subscriptions keys
          (set_queueProcessor
             (queueProcessor s ++ [mkJob "unsubscribe" (Connection.tickerTopic symbol)]) s))).
Proof.
  js_unfold. destruct (socketOpen s); simpl; [ | reflexivity].
  destruct (Js.includes (subscriptions s) (Connection.tickerKey symbol)); reflexivity.
Qed.

Section CandleEquations.

Variable mapCandleInterval : string -> option string.

Lemma subscribeCandle_eq (symbol interval : string) (s : Client) :
  Connection.subscribeCandle mapCandleInterval symbol interval s =
  if negb (socketOpen s) then (Thrown NotConnectedError, s)
  else if negb (Js.truthy (mapCandleInterval interval))
  then (Thrown InvalidIntervalError, s)
  else if Js.includes (subscriptions s) (Connection.candleKey symbol interval)
  then (Returned tt, s)
  else
    let keys := (subscriptions s ++ [Connection.candleKey symbol interval])%list in
    let s1 := set_emitted (emitted s ++ [EvSubscriptions keys]) (set_subscriptions keys s) in
    match ws s with
    | None => (Thrown UndefinedAccessError, s1)
    | Some w =>
        if (readyState w =? 0)%Z
        then (Returned tt,
              set_emitted (emitted s1 ++ [EvSocketNotReady
                 ("socket not ready to subscribe candle for: " ++ symbol ++ " " ++ interval)])
                s1)
        else (Returned tt,
              set_queueProcessor
                (queueProcessor s ++
                   [mkJob "subscribe"
                      (Connection.candleTopic symbol (mapCandleInterval interval))]) s1)
    end.
Proof.
  js_unfold. destruct (socketOpen s); simpl; [ | reflexivity].
  destruct (Js.truthy (mapCandleInterval interval)); simpl; [ | reflexivity].
  destruct (Js.includes (subscriptions s) (Connection.candleKey symbol interval)); simpl;
    [reflexivity | ].
  destruct (ws s) as [w | ]; simpl; [ | reflexivity].
  destruct (readyState w =? 0)%Z; reflexivity.
Qed.

Lemma unsubscribeCandle_eq (symbol interval : string) (s : Client) :
  Connection.unsubscribeCandle mapCandleInterval symbol interval s =
  if negb (socketOpen s) then (Thrown NotConnectedError, s)
  else if negb (Js.truthy (mapCandleInterval interval))
  then (Thrown InvalidIntervalError, s)
  else if negb (Js.includes (subscriptions s) (Connection.candleKey symbol interval))
  then (Returned tt, s)
  else
    let key := Connection.candleKey symbol interval in
    let keys := Js.remove (subscriptions s) key in
    (Returned tt,
     set_emitted (emitted s ++ [EvSubscriptions keys])
       (set_candleCache (Js.remove (candleCache s) key)
          (set_subscriptions keys
             (set_queueProcessor
                (queueProcessor s ++
                   [mkJob "unsubscribe"
                      (Connection.candleTopic symbol (mapCandleInterval interval))]) s)))).
Proof.
  js_unfold. destruct (socketOpen s); simpl; [ | reflexivity].
  destruct (Js.truthy (mapCandleInterval interval)); simpl; [ | reflexivity].
  destruct (Js.includes (subscriptions s) (Connection.candleKey symbol interval));
    reflexivity.
Qed.

End CandleEquations.

(** ** Key strings *)

Lemma append_inj_l (p a b : string) : p ++ a = p ++ b -> a = b.
Proof.
  induction p as [ | c p IH]; simpl; intros H; [assumption | ].
  injection H as H. now apply IH.
Qed.

Lemma tickerKey_inj (a b : string) :
  Connection.tickerKey a = Connection.tickerKey b <-> a = b.
Proof.
  split; [ | now intros ->]. unfold Connection.tickerKey. apply append_inj_l.
Qed.

Lemma count_occ_app_single (l : list string) (k : string) :
  ~ In k l -> count_occ string_dec (l ++ [k]) k = 1%nat.
Proof.
  intros Hnot. rewrite count_occ_app.
  rewrite (proj1 (count_occ_not_In string_dec l k) Hnot). simpl.
  destruct (string_dec k k); [reflexivity | congruence].
Qed.

Lemma NoDup_app_single (l : list string) (k : string) :
  NoDup l -> ~ In k l -> NoDup (l ++ [k]).
Proof.
  intros Hnd Hnot. induction Hnd as [ | x l Hx Hnd IH]; simpl.
  - constructor; [intros [] | constructor].
  - constructor.
    + rewrite in_app_iff. intros [H | [H | []]]; [now apply Hx | ].
      subst. apply Hnot. now left.
    + apply IH. intros H. apply Hnot. now right.
Qed.

(** ** The subscribe contract of a connection *)

Section SubscribeContract.

Variable mapCandleInterval : string -> option string.

(** Claim C2, as amended.  A subscribe or unsubscribe call throws the
    "please call connect" error exactly when the [socketOpen] flag is
    down at the moment of the call, whatever the connection has been
    through before; the call then returns the state it was given:
    nothing is registered, removed, pushed on the queue or emitted.
    While the flag is up, a [subscribeTicker] whose transport is still in
    [readyState] 0 registers the Feed Key, emits the subscriptions and
    the socket-not-ready notifications and pushes nothing on the
    queue. *)
Theorem not_connected_iff_socket_closed (s : Client) (symbol interval : string) :
  (outcome (Connection.subscribeTicker symbol) s = Thrown NotConnectedError
   <-> socketOpen s = false) /\
  (outcome (Connection.unsubscribeTicker symbol) s = Thrown NotConnectedError
   <-> socketOpen s = false) /\
  (outcome (Connection.subscribeCandle mapCandleInterval symbol interval) s
   = Thrown NotConnectedError
   <-> socketOpen s = false) /\
  (outcome (Connection.unsubscribeCandle mapCandleInterval symbol interval) s
   = Thrown NotConnectedError
   <-> socketOpen s = false) /\
  (socketOpen s = false ->
   Connection.subscribeTicker symbol s = (Thrown NotConnectedError, s) /\
   Connection.unsubscribeTicker symbol s = (Thrown NotConnectedError, s) /\
   Connection.subscribeCandle mapCandleInterval symbol interval s
   = (Thrown NotConnectedError, s) /\
   Connection.unsubscribeCandle mapCandleInterval symbol interval s
   = (Thrown NotConnectedError, s)) /\
  (forall w,
      socketOpen s = true -> ws s = Some w -> readyState w = 0%Z ->
      Js.includes (subscriptions s) (Connection.tickerKey symbol) = false ->
      outcome (Connection.subscribeTicker symbol) s = Returned tt /\
      subscriptions (run (Connection.subscribeTicker symbol) s)
      = (subscriptions s ++ [Connection.tickerKey symbol])%list /\
      queueProcessor (run (Connection.subscribeTicker symbol) s) = queueProcessor s /\
      emitted (run (Connection.subscribeTicker symbol) s)
      = (emitted s ++
           [EvSubscriptions (subscriptions s ++ [Connection.tickerKey symbol]);
            EvSocketNotReady ("socket not ready to subscribe ticker for: " ++ symbol)])%list).
Proof.
  unfold outcome, run.
  rewrite subscribeTicker_eq, unsubscribeTicker_eq, subscribeCandle_eq,
    unsubscribeCandle_eq.
  repeat split.
  - destruct (socketOpen s); simpl; [ | reflexivity].
    destruct (Js.includes _ _); simpl; [discriminate | ].
    destruct (ws s) as [w | ]; simpl; [ | discriminate].
    destruct (readyState w =? 0)%Z; discriminate.
  - intros ->. reflexivity.
  - destruct (socketOpen s); simpl; [ | reflexivity].
    destruct (Js.includes _ _); simpl; discriminate.
  - intros ->. reflexivity.
  - destruct (socketOpen s); simpl; [ | reflexivity].
    destruct (Js.truthy _); simpl; [ | discriminate].
    destruct (Js.includes _ _); simpl; [discriminate | ].
    destruct (ws s) as [w | ]; simpl; [ | discriminate].
    destruct (readyState w =? 0)%Z; discriminate.
  - intros ->. reflexivity.
  - destruct (socketOpen s); simpl; [ | reflexivity].
    destruct (Js.truthy _); simpl; [ | discriminate].
    destruct (Js.includes _ _); simpl; discriminate.
  - intros ->. reflexivity.
  - rewrite H. reflexivity.
  - rewrite H. reflexivity.
  - rewrite H. reflexivity.
  - rewrite H. reflexivity.
  - rewrite H, H2, H0. simpl. rewrite H1. reflexivity.
  - rewrite H, H2, H0. simpl. rewrite H1. reflexivity.
  - rewrite H, H2, H0. simpl. rewrite H1. reflexivity.
  - rewrite H, H2, H0. simpl. rewrite H1. simpl. rewrite <- app_assoc. reflexivity.
Qed.

(** Claim C4.  On an open connection whose transport is ready and whose
    subscription array has no duplicate, two [subscribeTicker] calls
    with one symbol, or two [subscribeCandle] calls with one symbol and
    one supported interval, leave exactly one entry for the key; the
    second call returns the state it was given, so it changes no field,
    pushes no frame and emits nothing; and over the two calls exactly
    one subscribe frame is pushed when the key was new (none when it was
    already there). *)
Theorem subscribe_twice_idempotent (s : Client) (w : WebSocket)
        (symbol interval : string) :
  socketOpen s = true -> ws s = Some w -> readyState w <> 0%Z ->
  NoDup (subscriptions s) ->
  (let s1 := run (Connection.subscribeTicker symbol) s in
   Connection.subscribeTicker symbol s1 = (Returned tt, s1) /\
   count_occ string_dec (subscriptions s1) (Connection.tickerKey symbol) = 1%nat /\
   NoDup (subscriptions s1) /\
   queueProcessor s1
   = (queueProcessor s ++
        if Js.includes (subscriptions s) (Connection.tickerKey symbol) then []
        else [mkJob "subscribe" (Connection.tickerTopic symbol)])%list) /\
  (Js.truthy (mapCandleInterval interval) = true ->
   let s1 := run (Connection.subscribeCandle mapCandleInterval symbol interval) s in
   Connection.subscribeCandle mapCandleInterval symbol interval s1 = (Returned tt, s1) /\
   count_occ string_dec (subscriptions s1) (Connection.candleKey symbol interval) = 1%nat /\
   NoDup (subscriptions s1) /\
   queueProcessor s1
   = (queueProcessor s ++
        if Js.includes (subscriptions s) (Connection.candleKey symbol interval) then []
        else [mkJob "subscribe"
                (Connection.candleTopic symbol (mapCandleInterval interval))])%list).
Proof.
  intros Hopen Hws Hready Hnd.
  apply Z.eqb_neq in Hready.
  split; [ | intros Hitv]; cbv zeta; unfold run.
  - rewrite (subscribeTicker_eq symbol s). rewrite Hopen, Hws. simpl. rewrite Hready.
    destruct (Js.includes (subscriptions s) (Connection.tickerKey symbol)) eqn:Hin; simpl.
    + rewrite subscribeTicker_eq, Hopen, Hin. simpl.
      repeat split; try assumption.
      * apply includes_true_iff in Hin.
        apply NoDup_count_occ' with (decA := string_dec); assumption.
      * now rewrite app_nil_r.
    + rewrite subscribeTicker_eq. simpl. rewrite Hopen. simpl.
      rewrite includes_app, includes_single, String.eqb_refl, orb_true_r.
      apply includes_false_iff in Hin.
      repeat split.
      * now apply count_occ_app_single.
      * now apply NoDup_app_single.
  - rewrite (subscribeCandle_eq mapCandleInterval symbol interval s).
    rewrite Hopen, Hws, Hitv. simpl. rewrite Hready.
    destruct (Js.includes (subscriptions s) (Connection.candleKey symbol interval))
      eqn:Hin; simpl.
    + rewrite subscribeCandle_eq, Hopen, Hitv, Hin. simpl.
      repeat split; try assumption.
      * apply includes_true_iff in Hin.
        apply NoDup_count_occ' with (decA := string_dec); assumption.
      * now rewrite app_nil_r.
    + rewrite subscribeCandle_eq. simpl. rewrite Hopen, Hitv. simpl.
      rewrite includes_app, includes_single, String.eqb_refl, orb_true_r.
      apply includes_false_iff in Hin.
      repeat split.
      * now apply count_occ_app_single.
      * now apply NoDup_app_single.
Qed.

(** Claim C5, as amended.  The Feed Key of a ticker is "ticker-"
    followed by the symbol as the caller wrote it, so two calls are one
    subscription exactly when their symbol strings are equal: on an open
    and ready connection that holds neither key, [subscribeTicker a]
    followed by [subscribeTicker b] adds one entry when [a = b] and two
    entries otherwise. *)
Theorem same_subscription_iff_same_symbol (s : Client) (w : WebSocket) (a b : string) :
  socketOpen s = true -> ws s = Some w -> readyState w <> 0%Z ->
  Js.includes (subscriptions s) (Connection.tickerKey a) = false ->
  Js.includes (subscriptions s) (Connection.tickerKey b) = false ->
  (Connection.tickerKey a = Connection.tickerKey b <-> a = b) /\
  subscriptions (run (Connection.subscribeTicker b) (run (Connection.subscribeTicker a) s))
  = (subscriptions s ++
       if String.eqb a b then [Connection.tickerKey a]
       else [Connection.tickerKey a; Connection.tickerKey b])%list.
Proof.
  intros Hopen Hws Hready Ha Hb. apply Z.eqb_neq in Hready.
  split; [apply tickerKey_inj | ].
  unfold run. rewrite (subscribeTicker_eq a s), Hopen, Ha, Hws. simpl.
  rewrite Hready. simpl.
  rewrite subscribeTicker_eq. simpl. rewrite Hopen. simpl.
  rewrite includes_app, Hb, includes_single. simpl.
  destruct (String.eqb_spec a b) as [-> | Hne].
  - rewrite String.eqb_refl. reflexivity.
  - destruct (String.eqb_spec b a) as [Heq | _]; [now subst | ].
    rewrite Hws, Hready. simpl. now rewrite <- app_assoc.
Qed.

(** Claim C7.  [subscribeCandle] and [unsubscribeCandle] with an
    interval that the table does not map to a code leave the connection
    exactly as it was: the subscription array, the queue, the emitted
    notifications and every other field are untouched.  On a connection
    whose flag is up, the call ends with the "wrong format" TypeError,
    and the state it returns is the state it was given. *)
Theorem invalid_interval_atomic (s : Client) (symbol interval : string) :
  Js.truthy (mapCandleInterval interval) = false ->
  (run (Connection.subscribeCandle mapCandleInterval symbol interval) s = s /\
   run (Connection.unsubscribeCandle mapCandleInterval symbol interval) s = s) /\
  (socketOpen s = true ->
   Connection.subscribeCandle mapCandleInterval symbol interval s
   = (Thrown InvalidIntervalError, s) /\
   Connection.unsubscribeCandle mapCandleInterval symbol interval s
   = (Thrown InvalidIntervalError, s)).
Proof.
  intros Hitv. unfold run.
  rewrite subscribeCandle_eq, unsubscribeCandle_eq, Hitv.
  split.
  - destruct (socketOpen s); split; reflexivity.
  - intros ->. split; reflexivity.
Qed.

End SubscribeContract.

(** ** Closing a connection *)

(** Claim C8.  With a non-empty subscription array [closeConnection]
    throws the "activated subscriptions" error and returns the state it
    was given: [askingClose] is not set and [close] is not called on the
    transport.  With an empty array and a transport present it sets
    [askingClose] and calls [close] on the transport once. *)
Theorem closeConnection_precondition (s : Client) :
  (subscriptions s <> [] ->
   Connection.closeConnection s = (Thrown ActiveSubscriptionsError, s)) /\
  (forall w, subscriptions s = [] -> ws s = Some w ->
             Connection.closeConnection s
             = (Returned tt, set_ws (Some (ws_close w)) (set_askingClose true s))).
Proof.
  js_unfold. split.
  - intros Hne. simpl. destruct (subscriptions s); [congruence | reflexivity].
  - intros w Hnil Hws. simpl. rewrite Hnil. simpl. rewrite Hws. reflexivity.
Qed.

(** Claim C10.  With an empty subscription array and no transport
    handle, [closeConnection] sets [askingClose] and then throws the
    runtime's TypeError on [this.ws.close]: not one of the errors of the
    taxonomy, and no [close] reaches a transport.  The handle is absent on
    a connection that was never connected and on one whose transport has
    raised its "close" event. *)
Theorem closeConnection_without_transport (s : Client) :
  (subscriptions s = [] -> ws s = None ->
   Connection.closeConnection s
   = (Thrown UndefinedAccessError, set_askingClose true s)) /\
  (subscriptions s = [] ->
   outcome Connection.closeConnection (Connection.onClose s)
   = Thrown UndefinedAccessError) /\
  outcome Connection.closeConnection Connection.new = Thrown UndefinedAccessError.
Proof.
  js_unfold. repeat split.
  - intros Hnil Hws. rewrite Hnil. simpl. rewrite Hws. reflexivity.
  - intros Hnil. unfold Connection.onClose. simpl.
    destruct (askingClose s); simpl; rewrite Hnil; reflexivity.
Qed.

(** ** Wire frames *)

(** Claim C9, as amended.  A subscribe or unsubscribe frame carries the
    clock reading of the moment it is built as its [id], and the pair
    [privateChannel: false], [response: true]; the ping frame carries the
    clock reading as [id] and the type "ping", and neither
    [privateChannel] nor [response].  Two frames have the same [id]
    exactly when they were built at the same clock reading.  These are the
    frames the queue and [sendPing] hand to the transport. *)
Theorem frame_shape (now now' : Z) (j j' : Job) :
  (Json.field "id" (Connection.commandFrame now j) = Some (Json.Num now) /\
   Json.field "type" (Connection.commandFrame now j) = Some (Json.Str (jobType j)) /\
   Json.field "topic" (Connection.commandFrame now j) = Some (Json.Str (jobTopic j)) /\
   Json.field "privateChannel" (Connection.commandFrame now j) = Some (Json.Bool false) /\
   Json.field "response" (Connection.commandFrame now j) = Some (Json.Bool true)) /\
  (Json.field "id" (Connection.pingFrame now) = Some (Json.Num now) /\
   Json.field "type" (Connection.pingFrame now) = Some (Json.Str "ping") /\
   Json.field "privateChannel" (Connection.pingFrame now) = None /\
   Json.field "response" (Connection.pingFrame now) = None) /\
  (Json.field "id" (Connection.commandFrame now j)
   = Json.field "id" (Connection.commandFrame now' j') <-> now = now') /\
  (Json.field "id" (Connection.commandFrame now j)
   = Json.field "id" (Connection.pingFrame now') <-> now = now') /\
  (forall s w q,
      ws s = Some w -> queueProcessor s = j :: q ->
      Connection.queueRun now s
      = (Returned tt,
         set_ws (Some (ws_send (Connection.commandFrame now j) w))
           (set_queueProcessor q s))) /\
  (forall s w,
      socketOpen s = true -> ws s = Some w ->
      Connection.sendPing now s
      = (Returned tt, set_ws (Some (ws_send (Connection.pingFrame now) w)) s)).
Proof.
  repeat split; try reflexivity; simpl; try congruence.
  - intros s w q Hws Hq. js_unfold. rewrite Hq. simpl. rewrite Hws. reflexivity.
  - intros s w Hopen Hws. js_unfold. rewrite Hopen. simpl. rewrite Hws. reflexivity.
Qed.

(** ** Token acquisition *)

(** Claim C6, on the code.  When the token request itself is rejected,
    [connect()] is rejected with the request's error and the
    [socketConnecting] flag it has raised stays up; the flag is lowered,
    and the "invalid public token" error raised, only when the request
    resolves to a response without data or without a token. *)
Theorem rejected_token_request_keeps_connecting
        (mapCandleInterval : string -> option string)
        (cid : string) (hs : Handshake) (s : Client)
        (servers : list InstanceServer) :
  Connection.connect mapCandleInterval GotRejected cid hs s
  = (Rejected RequestError, set_socketConnecting true s) /\
  Connection.isSocketConnecting
    (snd (Connection.connect mapCandleInterval GotRejected cid hs s)) = true /\
  Connection.connect mapCandleInterval (GotResolved (mkPublicToken None)) cid hs s
  = (Rejected TokenAcquisitionError, set_socketConnecting false (set_socketConnecting true s)) /\
  Connection.connect mapCandleInterval
    (GotResolved (mkPublicToken (Some (mkTokenData None servers)))) cid hs s
  = (Rejected TokenAcquisitionError, set_socketConnecting false (set_socketConnecting true s)) /\
  Connection.connect mapCandleInterval
    (GotResolved (mkPublicToken (Some (mkTokenData (Some "") servers)))) cid hs s
  = (Rejected TokenAcquisitionError, set_socketConnecting false (set_socketConnecting true s)).
Proof. repeat split. Qed.

(** ** Concrete runs *)

(** Claim C2, the claim as written fails: a connection that has been
    open and whose transport has since closed throws on
    [subscribeTicker], and registers nothing. *)
Lemma subscribe_after_close_throws :
  socketOpen Sample.opened = true /\
  Connection.subscribeTicker "BTC/USDT" (Connection.onClose Sample.opened)
  = (Thrown NotConnectedError, Connection.onClose Sample.opened) /\
  subscriptions (Connection.onClose Sample.opened) = [].
Proof. repeat split. Qed.

(** Claim C5, the claim as written fails: the two spellings of one
    market give two entries, whose frames carry one topic. *)
Lemma slash_and_dash_are_two_subscriptions :
  subscriptions
    (run (Connection.subscribeTicker "BTC-USDT")
         (run (Connection.subscribeTicker "BTC/USDT") Sample.opened))
  = ["ticker-BTC/USDT"; "ticker-BTC-USDT"] /\
  queueProcessor
    (run (Connection.subscribeTicker "BTC-USDT")
         (run (Connection.subscribeTicker "BTC/USDT") Sample.opened))
  = [mkJob "subscribe" "/market/ticker:BTC-USDT";
     mkJob "subscribe" "/market/ticker:BTC-USDT"].
Proof. split; reflexivity. Qed.

(** Claim C9, the claim as written fails: the ping frame that
    [sendPing] hands to the transport has no [privateChannel] and no
    [response], and a ping and a subscribe frame built at one clock
    reading share their [id]. *)
Lemma ping_frame_has_no_pair :
  option_map sent (ws (run (Connection.sendPing 1000) Sample.opened))
  = Some [Connection.pingFrame 1000] /\
  Json.field "privateChannel" (Connection.pingFrame 1000) = None /\
  Json.field "response" (Connection.pingFrame 1000) = None /\
  Json.field "id" (Connection.pingFrame 1000)
  = Json.field "id"
      (Connection.commandFrame 1000 (mkJob "subscribe" "/market/ticker:BTC-USDT")).
Proof. repeat split. Qed.

Lemma not_connected_iff_socket_closed_witness :
  (Connection.subscribeTicker "BTC/USDT" (Connection.onClose Sample.opened)
   = (Thrown NotConnectedError, Connection.onClose Sample.opened) /\
   Connection.unsubscribeTicker "BTC/USDT" (Connection.onClose Sample.opened)
   = (Thrown NotConnectedError, Connection.onClose Sample.opened)) /\
  (outcome (Connection.subscribeTicker "BTC/USDT") Scenario.overlappingConnects
   = Returned tt /\
   subscriptions (run (Connection.subscribeTicker "BTC/USDT") Scenario.overlappingConnects)
   = (subscriptions Scenario.overlappingConnects ++ [Connection.tickerKey "BTC/USDT"])%list /\
   queueProcessor (run (Connection.subscribeTicker "BTC/USDT") Scenario.overlappingConnects)
   = queueProcessor Scenario.overlappingConnects).
Proof.
  split.
  - destruct (not_connected_iff_socket_closed Sample.mapCandleInterval
                (Connection.onClose Sample.opened) "BTC/USDT" "1m")
      as (_ & _ & _ & _ & Hdown & _).
    destruct (Hdown eq_refl) as (Hsub & Hunsub & _).
    exact (conj Hsub Hunsub).
  - destruct (not_connected_iff_socket_closed Sample.mapCandleInterval
                Scenario.overlappingConnects "BTC/USDT" "1m")
      as (_ & _ & _ & _ & _ & Hdefer).
    assert (Hopen : socketOpen Scenario.overlappingConnects = true)
      by (vm_compute; reflexivity).
    assert (Hws : ws Scenario.overlappingConnects
                  = Some (ws_new "wss://ws-api.kucoin.com/endpoint?token=tkn&connectId=bb02"))
      by (vm_compute; reflexivity).
    assert (Hkey : Js.includes (subscriptions Scenario.overlappingConnects)
                     (Connection.tickerKey "BTC/USDT") = false)
      by (vm_compute; reflexivity).
    destruct (Hdefer _ Hopen Hws eq_refl Hkey) as (Ho & Hs & Hq & _).
    exact (conj Ho (conj Hs Hq)).
Defined.

Lemma subscribe_twice_idempotent_witness :
  (Connection.subscribeTicker "BTC/USDT"
     (run (Connection.subscribeTicker "BTC/USDT") Sample.opened)
   = (Returned tt, run (Connection.subscribeTicker "BTC/USDT") Sample.opened) /\
   queueProcessor (run (Connection.subscribeTicker "BTC/USDT") Sample.opened)
   = [mkJob "subscribe" "/market/ticker:BTC-USDT"]) /\
  (Connection.subscribeCandle Sample.mapCandleInterval "BTC/USDT" "1m"
     (run (Connection.subscribeCandle Sample.mapCandleInterval "BTC/USDT" "1m") Sample.opened)
   = (Returned tt,
      run (Connection.subscribeCandle Sample.mapCandleInterval "BTC/USDT" "1m") Sample.opened) /\
   queueProcessor
     (run (Connection.subscribeCandle Sample.mapCandleInterval "BTC/USDT" "1m") Sample.opened)
   = [mkJob "subscribe" "/market/candles:BTC-USDT_1min"]).
Proof.
  assert (Hready : readyState (mkWebSocket (wsPath Sample.opened) 1 [] 0) <> 0%Z)
    by (simpl; discriminate).
  destruct (subscribe_twice_idempotent Sample.mapCandleInterval Sample.opened
              (mkWebSocket (wsPath Sample.opened) 1 [] 0) "BTC/USDT" "1m"
              eq_refl eq_refl Hready (NoDup_nil string))
    as ((Hsecond & _ & _ & Hq) & Hcandle).
  destruct (Hcandle eq_refl) as (Hsecond' & _ & _ & Hq').
  exact (conj (conj Hsecond Hq) (conj Hsecond' Hq')).
Defined.

Lemma same_subscription_iff_same_symbol_witness :
  subscriptions
    (run (Connection.subscribeTicker "BTC-USDT")
         (run (Connection.subscribeTicker "BTC/USDT") Sample.opened))
  = ["ticker-BTC/USDT"; "ticker-BTC-USDT"].
Proof.
  assert (Hready : readyState (mkWebSocket (wsPath Sample.opened) 1 [] 0) <> 0%Z)
    by (simpl; discriminate).
  exact (proj2 (same_subscription_iff_same_symbol Sample.opened
                  (mkWebSocket (wsPath Sample.opened) 1 [] 0) "BTC/USDT" "BTC-USDT"
                  eq_refl eq_refl Hready eq_refl eq_refl)).
Defined.

Lemma invalid_interval_atomic_witness :
  Connection.subscribeCandle Sample.mapCandleInterval "BTC/USDT" "7m" Sample.opened
  = (Thrown InvalidIntervalError, Sample.opened) /\
  Connection.unsubscribeCandle Sample.mapCandleInterval "BTC/USDT" "7m" Sample.opened
  = (Thrown InvalidIntervalError, Sample.opened).
Proof.
  exact (proj2 (invalid_interval_atomic Sample.mapCandleInterval Sample.opened
                  "BTC/USDT" "7m" eq_refl) eq_refl).
Defined.

Lemma closeConnection_precondition_witness :
  Connection.closeConnection (run (Connection.subscribeTicker "BTC/USDT") Sample.opened)
  = (Thrown ActiveSubscriptionsError,
     run (Connection.subscribeTicker "BTC/USDT") Sample.opened) /\
  outcome Connection.closeConnection Sample.opened = Returned tt /\
  askingClose (run Connection.closeConnection Sample.opened) = true /\
  option_map closeCalls (ws (run Connection.closeConnection Sample.opened)) = Some 1%nat.
Proof.
  split.
  - apply (proj1 (closeConnection_precondition
                    (run (Connection.subscribeTicker "BTC/USDT") Sample.opened))).
    simpl. discriminate.
  - unfold outcome, run.
    rewrite (proj2 (closeConnection_precondition Sample.opened)
               (mkWebSocket (wsPath Sample.opened) 1 [] 0) eq_refl eq_refl).
    repeat split.
Defined.

Lemma closeConnection_without_transport_witness :
  Connection.closeConnection Connection.new
  = (Thrown UndefinedAccessError, set_askingClose true Connection.new) /\
  outcome Connection.closeConnection (Connection.onClose Sample.opened)
  = Thrown UndefinedAccessError.
Proof.
  split.
  - exact (proj1 (closeConnection_without_transport Connection.new) eq_refl eq_refl).
  - exact (proj1 (proj2 (closeConnection_without_transport Sample.opened)) eq_refl).
Defined.

Lemma frame_shape_witness :
  Connection.sendPing 1000 Sample.opened
  = (Returned tt,
     set_ws (Some (ws_send (Connection.pingFrame 1000)
                     (mkWebSocket (wsPath Sample.opened) 1 [] 0))) Sample.opened) /\
  option_map sent
    (ws (run (Connection.queueRun 2000)
           (run (Connection.subscribeTicker "BTC/USDT") Sample.opened)))
  = Some [Connection.commandFrame 2000 (mkJob "subscribe" "/market/ticker:BTC-USDT")].
Proof.
  destruct (frame_shape 1000 1000 (mkJob "subscribe" "t") (mkJob "subscribe" "t"))
    as (_ & _ & _ & _ & _ & Hping).
  destruct (frame_shape 2000 2000 (mkJob "subscribe" "/market/ticker:BTC-USDT")
              (mkJob "subscribe" "/market/ticker:BTC-USDT"))
    as (_ & _ & _ & _ & Hrun & _).
  split.
  - exact (Hping Sample.opened (mkWebSocket (wsPath Sample.opened) 1 [] 0)
             eq_refl eq_refl).
  - unfold run.
    rewrite (Hrun (snd (Connection.subscribeTicker "BTC/USDT" Sample.opened))
               (mkWebSocket (wsPath Sample.opened) 1 [] 0) [] eq_refl eq_refl).
    reflexivity.
Defined.

(** ** Replay after a reconnection *)

Lemma split_no_sep (sep : ascii) (s : string) :
  Js.has sep s = false -> Js.split sep s = [s].
Proof.
  induction s as [ | a r IH]; simpl; [reflexivity | ].
  intros H. apply orb_false_iff in H as [Ha Hr].
  rewrite Ha, (IH Hr). reflexivity.
Qed.

Lemma split_app (sep : ascii) (a b : string) :
  Js.has sep a = false ->
  Js.split sep (a ++ String sep b) = a :: Js.split sep b.
Proof.
  induction a as [ | c a IH]; simpl.
  - intros _. now rewrite Ascii.eqb_refl.
  - intros H. apply orb_false_iff in H as [Hc Ha].
    rewrite Hc, (IH Ha). reflexivity.
Qed.

Lemma split_tickerKey (symbol : string) :
  Js.has "-" symbol = false ->
  Js.split "-" (Connection.tickerKey symbol) = ["ticker"; symbol].
Proof.
  intros H. change (Connection.tickerKey symbol) with ("ticker" ++ String "-" symbol).
  rewrite split_app by reflexivity. now rewrite split_no_sep.
Qed.

Lemma split_candleKey (symbol interval : string) :
  Js.has "-" symbol = false -> Js.has "-" interval = false ->
  Js.split "-" (Connection.candleKey symbol interval) = ["candle"; symbol; interval].
Proof.
  intros Hs Hi.
  change (Connection.candleKey symbol interval)
    with ("candle" ++ String "-" (symbol ++ String "-" interval)).
  rewrite split_app by reflexivity.
  rewrite split_app by assumption. now rewrite split_no_sep.
Qed.

Section Replay.

Variable mapCandleInterval : string -> option string.

(** One turn of the replay loop on a readable key that is not yet in the
    array: the key is appended, the flag and the transport stay. *)
Lemma restartOne_replayable (k : string) (s : Client) (w : WebSocket) :
  Replayable mapCandleInterval k ->
  socketOpen s = true -> ws s = Some w -> readyState w <> 0%Z ->
  ~ In k (subscriptions s) ->
  exists s',
    Connection.restartOne mapCandleInterval k s = (Returned tt, s') /\
    subscriptions s' = (subscriptions s ++ [k])%list /\
    socketOpen s' = true /\ ws s' = Some w /\
    socketConnecting s' = socketConnecting s.
Proof.
  intros Hk Hopen Hws Hready Hnot.
  apply Z.eqb_neq in Hready. apply includes_false_iff in Hnot.
  destruct Hk as [symbol Hsym | symbol interval Hsym Hint Hmap].
  - unfold Connection.restartOne. rewrite split_tickerKey by assumption.
    cbn [nth_error String.eqb Ascii.eqb Bool.eqb]. unfold bind at 1.
    rewrite subscribeTicker_eq, Hopen, Hnot, Hws. simpl. rewrite Hready.
    eexists. split; [reflexivity | ]. simpl. now rewrite Hws.
  - unfold Connection.restartOne. rewrite split_candleKey by assumption.
    cbn [nth_error String.eqb Ascii.eqb Bool.eqb Js.show]. unfold bind, ret.
    rewrite subscribeCandle_eq, Hopen, Hmap, Hnot, Hws. simpl. rewrite Hready.
    eexists. split; [reflexivity | ]. simpl. now rewrite Hws.
Qed.

Lemma restartEach_replayable (previousSubs : list string) :
  forall (s : Client) (w : WebSocket),
    Forall (Replayable mapCandleInterval) previousSubs ->
    socketOpen s = true -> ws s = Some w -> readyState w <> 0%Z ->
    NoDup (subscriptions s ++ previousSubs) ->
    exists s',
      Connection.restartEach mapCandleInterval previousSubs s = (Returned tt, s') /\
      subscriptions s' = (subscriptions s ++ previousSubs)%list /\
      socketOpen s' = true /\ socketConnecting s' = socketConnecting s.
Proof.
  induction previousSubs as [ | k rest IH]; intros s w Hall Hopen Hws Hready Hnd.
  - exists s. split; [reflexivity | now rewrite app_nil_r].
  - inversion Hall as [ | ? ? Hk Hrest]; subst.
    assert (Hnot : ~ In k (subscriptions s)).
    { intros Hin. apply NoDup_remove_2 in Hnd. apply Hnd.
      apply in_or_app. now left. }
    destruct (restartOne_replayable k s w Hk Hopen Hws Hready Hnot)
      as (s1 & Hone & Hsubs & Hopen1 & Hws1 & Hconn1).
    destruct (IH s1 w Hrest Hopen1 Hws1 Hready)
      as (s2 & Heach & Hsubs2 & Hopen2 & Hconn2).
    { rewrite Hsubs, <- app_assoc. exact Hnd. }
    exists s2. split; [ | split; [ | split]].
    + simpl. unfold bind. rewrite Hone. exact Heach.
    + rewrite Hsubs2, Hsubs, <- app_assoc. reflexivity.
    + exact Hopen2.
    + congruence.
Qed.

Lemma onClose_fields (s : Client) :
  subscriptions (Connection.onClose s) = subscriptions s /\
  socketOpen (Connection.onClose s) = false /\
  ws (Connection.onClose s) = None /\
  queueProcessor (Connection.onClose s) = [].
Proof.
  unfold Connection.onClose. simpl. destruct (askingClose s); repeat split.
Qed.

Lemma restartPreviousSubscriptions_ready (s : Client) (w : WebSocket) :
  socketOpen s = true -> ws s = Some w -> readyState w <> 0%Z ->
  Connection.restartPreviousSubscriptions mapCandleInterval s
  = Connection.restartEach mapCandleInterval (subscriptions s) (set_subscriptions [] s).
Proof.
  intros Hopen Hws Hready. apply Z.eqb_neq in Hready.
  unfold Connection.restartPreviousSubscriptions, bind, get, modify,
    Connection.wsReadyState.
  rewrite Hopen. cbn [negb]. rewrite Hws, Hready. reflexivity.
Qed.

(** A [connect()] on a connection whose flag is down, with a token
    request and a handshake that succeed, replays every readable key. *)
Lemma connect_replays_readable_keys
      (s : Client) (tkn cid : string) (server : InstanceServer)
      (servers : list InstanceServer) :
  tkn <> "" ->
  socketOpen s = false ->
  NoDup (subscriptions s) ->
  Forall (Replayable mapCandleInterval) (subscriptions s) ->
  exists s',
    Connection.connect mapCandleInterval
      (GotResolved (mkPublicToken (Some (mkTokenData (Some tkn) (server :: servers)))))
      cid Welcomed s = (Resolved, s') /\
    subscriptions s' = subscriptions s /\
    socketOpen s' = true /\ socketConnecting s' = false.
Proof.
  intros Htkn Hopen Hnd Hall.
  assert (Htruthy : Js.truthy (Some tkn) = true)
    by (destruct tkn; [congruence | reflexivity]).
  unfold Connection.connect, Connection.connectResume.
  cbn [data token instanceServers]. rewrite Htruthy. cbn [negb].
  unfold Connection.openWebsocketConnection.
  cbn [socketOpen set_wsPath set_pingIntervalMs set_connectId set_candleCache
         set_askingClose Connection.connectBegin set_socketConnecting].
  rewrite Hopen.
  match goal with
  | |- context [Connection.restartPreviousSubscriptions _ ?X] => set (s2 := X)
  end.
  assert (Hs2 : subscriptions s2 = subscriptions s) by reflexivity.
  assert (Ho2 : socketOpen s2 = true) by reflexivity.
  assert (Hc2 : socketConnecting s2 = false) by reflexivity.
  assert (Hw2 : exists w, ws s2 = Some w /\ readyState w <> 0%Z)
    by (eexists; split; [reflexivity | discriminate]).
  destruct Hw2 as (w & Hw2 & Hready).
  clearbody s2. rewrite <- Hs2 in *.
  destruct (subscriptions s2) as [ | k rest] eqn:Hkeys.
  - exists s2. cbn [length Nat.ltb Nat.leb]. rewrite Hkeys. now repeat split.
  - cbn [length Nat.ltb Nat.leb].
    rewrite (restartPreviousSubscriptions_ready s2 w Ho2 Hw2 Hready), Hkeys.
    destruct (restartEach_replayable (k :: rest) (set_subscriptions [] s2) w
                Hall Ho2 Hw2 Hready Hnd)
      as (s' & Heach & Hres & Hopen' & Hconn').
    rewrite Heach. exists s'. split; [reflexivity | ].
    split; [exact Hres | ]. split; [exact Hopen' | ].
    rewrite Hconn'. exact Hc2.
Qed.

(** Property X8.
    What the replay does keep: when every Feed Key of the array reads
    back as it was written and the array has no duplicate, a transport
    close followed by a reconnection whose token request and handshake
    succeed leaves the subscription array as it was, key for key and in
    the same order. *)
Lemma replay_fidelity_readable_keys
      (s : Client) (tkn cid : string) (server : InstanceServer)
      (servers : list InstanceServer) :
  tkn <> "" ->
  NoDup (subscriptions s) ->
  Forall (Replayable mapCandleInterval) (subscriptions s) ->
  subscriptions
    (Connection.reconnect mapCandleInterval
       (GotResolved (mkPublicToken (Some (mkTokenData (Some tkn) (server :: servers)))))
       cid Welcomed (Connection.onClose s))
  = subscriptions s.
Proof.
  intros Htkn Hnd Hall.
  destruct (onClose_fields s) as (Hsubs & Hopen & _).
  unfold Connection.reconnect.
  match goal with
  | |- context [Connection.connect _ ?tok _ _ ?st] =>
      destruct (connect_replays_readable_keys st tkn cid server servers Htkn)
        as (s' & Hconnect & Hres & _)
  end.
  - exact Hopen.
  - cbn [subscriptions set_emitted]. now rewrite Hsubs.
  - cbn [subscriptions set_emitted]. now rewrite Hsubs.
  - rewrite Hconnect. cbn [snd]. rewrite Hres. cbn [subscriptions set_emitted].
    exact Hsubs.
Qed.

End Replay.

(** Claim C1, on the code.  A ticker subscribed under a symbol written
    with '-' is replayed under the part of the symbol before the '-': the
    array holds another key after the reconnection.  A candle subscribed
    under such a symbol makes the replay throw on what it takes for the
    interval, and the array is left empty. *)
Theorem replay_loses_dashed_symbols :
  subscriptions (run (Connection.subscribeTicker "BTC-USDT") Sample.opened)
  = ["ticker-BTC-USDT"] /\
  subscriptions
    (Connection.reconnect Sample.mapCandleInterval Sample.tokenOk Sample.cid Welcomed
       (Connection.onClose (run (Connection.subscribeTicker "BTC-USDT") Sample.opened)))
  = ["ticker-BTC"] /\
  subscriptions
    (run (Connection.subscribeCandle Sample.mapCandleInterval "BTC-USDT" "1m") Sample.opened)
  = ["candle-BTC-USDT-1m"] /\
  Connection.restartPreviousSubscriptions Sample.mapCandleInterval
    (run (Connection.subscribeCandle Sample.mapCandleInterval "BTC-USDT" "1m") Sample.opened)
  = (Thrown InvalidIntervalError,
     set_subscriptions []
       (run (Connection.subscribeCandle Sample.mapCandleInterval "BTC-USDT" "1m")
            Sample.opened)) /\
  subscriptions
    (Connection.reconnect Sample.mapCandleInterval Sample.tokenOk Sample.cid Welcomed
       (Connection.onClose
          (run (Connection.subscribeCandle Sample.mapCandleInterval "BTC-USDT" "1m")
               Sample.opened)))
  = [].
Proof. repeat apply conj; vm_compute; reflexivity. Qed.

(** ** The router *)

Lemma update_length (i : nat) (c : Client) (l : list Client) :
  length (Router.update i c l) = length l.
Proof.
  revert i. induction l as [ | a l IH]; intros [ | i]; simpl; auto.
Qed.

Lemma update_app_last (l : list Client) (c c' : Client) :
  Router.update (length l) c' (l ++ [c]) = (l ++ [c'])%list.
Proof. induction l as [ | a l IH]; simpl; [reflexivity | now rewrite IH]. Qed.

Lemma nth_error_app_last (l : list Client) (c : Client) :
  nth_error (l ++ [c]) (length l) = Some c.
Proof. induction l as [ | a l IH]; simpl; [reflexivity | exact IH]. Qed.

Lemma update_split (i : nat) (c c' : Client) (l : list Client) :
  nth_error l i = Some c ->
  exists l1 l2, l = (l1 ++ c :: l2)%list /\ Router.update i c' l = (l1 ++ c' :: l2)%list.
Proof.
  revert i. induction l as [ | a l IH]; intros [ | i] H; simpl in H; try discriminate.
  - injection H as ->. exists [], l. split; reflexivity.
  - destruct (IH i H) as (l1 & l2 & -> & Hu).
    exists (a :: l1), l2. split; [reflexivity | ]. simpl. now rewrite Hu.
Qed.

(** A client fresh from [getLastClient] refuses every subscription. *)
Lemma subscribe_on_new_client_throws (symbol : string) :
  Connection.subscribeTicker symbol (Connection.connectBegin Connection.new)
  = (Thrown NotConnectedError, Connection.connectBegin Connection.new).
Proof. rewrite subscribeTicker_eq. reflexivity. Qed.

(** Whenever [getLastClient] has to create a connection, the
    subscription that made it do so is thrown back at the caller. *)
Lemma subscribe_on_full_router_throws (symbol : string) (l : list Client) :
  existsb (Router.holds (Router.getTickerSubscriptionKey symbol)) l = false ->
  match nth_error l (length l - 1) with
  | Some lastClient =>
      (Router.maxSubscriptions <= Connection.getSubscriptionNumber lastClient)%nat
  | None => True
  end ->
  Router.subscribeTicker symbol l
  = (Thrown NotConnectedError, (l ++ [Connection.connectBegin Connection.new])%list).
Proof.
  intros Hnew Hfull. unfold Router.subscribeTicker. rewrite Hnew.
  assert (Hlast : Router.getLastClient l
                  = (length l, (l ++ [Connection.connectBegin Connection.new])%list)).
  { unfold Router.getLastClient.
    destruct (nth_error l (length l - 1)) as [lastClient | ]; [ | reflexivity].
    apply Nat.leb_le in Hfull. now rewrite Hfull. }
  rewrite Hlast. unfold Router.onClient.
  rewrite nth_error_app_last, subscribe_on_new_client_throws.
  now rewrite update_app_last.
Qed.

Lemma subscribeTicker_keys (symbol : string) (c : Client) :
  subscriptions (run (Connection.subscribeTicker symbol) c) = subscriptions c \/
  (~ In (Connection.tickerKey symbol) (subscriptions c) /\
   subscriptions (run (Connection.subscribeTicker symbol) c)
   = (subscriptions c ++ [Connection.tickerKey symbol])%list).
Proof.
  unfold run. rewrite subscribeTicker_eq.
  destruct (socketOpen c); simpl; [ | now left].
  destruct (Js.includes (subscriptions c) (Connection.tickerKey symbol)) eqn:Hin;
    [now left | ].
  apply includes_false_iff in Hin. right. split; [assumption | ].
  destruct (ws c) as [w | ]; simpl; [ | reflexivity].
  destruct (readyState w =? 0)%Z; reflexivity.
Qed.

(** The position [getLastClient] returns is always that of a client of
    the list it returns, and that client is below the capacity. *)
Lemma getLastClient_target (l : list Client) :
  exists c,
    nth_error (snd (Router.getLastClient l)) (fst (Router.getLastClient l)) = Some c /\
    (Connection.getSubscriptionNumber c < Router.maxSubscriptions)%nat /\
    (snd (Router.getLastClient l) = l \/
     snd (Router.getLastClient l) = (l ++ [Connection.connectBegin Connection.new])%list /\
     fst (Router.getLastClient l) = length l).
Proof.
  unfold Router.getLastClient.
  destruct (nth_error l (length l - 1)) as [lastClient | ] eqn:Hlast.
  - destruct (Router.maxSubscriptions <=? Connection.getSubscriptionNumber lastClient)%nat
      eqn:Hfull; simpl.
    + exists (Connection.connectBegin Connection.new).
      rewrite nth_error_app_last. repeat split.
      * unfold Router.maxSubscriptions, Connection.getSubscriptionNumber. simpl. lia.
      * now right.
    + exists lastClient. apply Nat.leb_gt in Hfull. repeat split; auto.
  - simpl. exists (Connection.connectBegin Connection.new).
    rewrite nth_error_app_last. repeat split.
    + unfold Router.maxSubscriptions, Connection.getSubscriptionNumber. simpl. lia.
    + now right.
Qed.

(** The cap: a router whose connections are all within the capacity
    stays so through any [subscribeTicker], whether it returns or
    throws. *)
Lemma router_capacity_preserved (symbol : string) (l : list Client) :
  Forall (fun c => (Connection.getSubscriptionNumber c <= Router.maxSubscriptions)%nat) l ->
  Forall (fun c => (Connection.getSubscriptionNumber c <= Router.maxSubscriptions)%nat)
    (snd (Router.subscribeTicker symbol l)).
Proof.
  intros Hcap. unfold Router.subscribeTicker.
  destruct (existsb _ l); [exact Hcap | ].
  destruct (getLastClient_target l) as (c & Hnth & Hbelow & Hshape).
  destruct (Router.getLastClient l) as [i l'] eqn:Hlast. simpl in Hnth, Hshape.
  unfold Router.onClient. rewrite Hnth.
  destruct (Connection.subscribeTicker symbol c) as [o c'] eqn:Hsub. simpl.
  assert (Hc' : (Connection.getSubscriptionNumber c' <= Router.maxSubscriptions)%nat).
  { pose proof (subscribeTicker_keys symbol c) as Hkeys. unfold run in Hkeys.
    rewrite Hsub in Hkeys. simpl in Hkeys. unfold Connection.getSubscriptionNumber in *.
    destruct Hkeys as [-> | [_ ->]]; [lia | ].
    rewrite length_app. simpl. lia. }
  assert (Hcap' : Forall (fun c => (Connection.getSubscriptionNumber c
                                    <= Router.maxSubscriptions)%nat) l').
  { destruct Hshape as [-> | [-> _]]; [exact Hcap | ].
    apply Forall_app. split; [exact Hcap | ].
    constructor; [ | constructor]. unfold Router.maxSubscriptions, Connection.getSubscriptionNumber. simpl. lia. }
  destruct (update_split i c c' l' Hnth) as (l1 & l2 & Hl' & ->).
  rewrite Hl' in Hcap'. apply Forall_app in Hcap' as [H1 H2].
  inversion H2; subst. apply Forall_app. split; [assumption | ]. now constructor.
Qed.

Lemma existsb_holds_false (key : string) (l : list Client) :
  existsb (Router.holds key) l = false -> ~ In key (Router.allSubscriptions l).
Proof.
  unfold Router.allSubscriptions. induction l as [ | c l IH]; simpl; [tauto | ].
  intros H. apply orb_false_iff in H as [Hc Hl].
  rewrite in_app_iff. intros [Hin | Hin].
  - apply includes_false_iff in Hc. now apply Hc.
  - now apply IH.
Qed.

(** Property X11.
    No Feed Key in two connections: a router whose connections hold
    pairwise distinct keys stays so through any [subscribeTicker]. *)
Lemma router_keys_stay_distinct (symbol : string) (l : list Client) :
  NoDup (Router.allSubscriptions l) ->
  NoDup (Router.allSubscriptions (snd (Router.subscribeTicker symbol l))).
Proof.
  intros Hnd. unfold Router.subscribeTicker.
  destruct (existsb _ l) eqn:Hheld; [exact Hnd | ].
  apply existsb_holds_false in Hheld.
  destruct (getLastClient_target l) as (c & Hnth & _ & Hshape).
  destruct (Router.getLastClient l) as [i l'] eqn:Hlast. simpl in Hnth, Hshape.
  assert (Hall : Router.allSubscriptions l' = Router.allSubscriptions l).
  { destruct Hshape as [-> | [-> _]]; [reflexivity | ].
    unfold Router.allSubscriptions. rewrite map_app, concat_app. simpl. now rewrite app_nil_r. }
  unfold Router.onClient. rewrite Hnth.
  destruct (Connection.subscribeTicker symbol c) as [o c'] eqn:Hsub. simpl.
  pose proof (subscribeTicker_keys symbol c) as Hkeys. unfold run in Hkeys.
  rewrite Hsub in Hkeys. simpl in Hkeys.
  destruct (update_split i c c' l' Hnth) as (l1 & l2 & Hl' & ->).
  rewrite <- Hall, Hl' in Hnd, Hheld. clear Hall.
  unfold Router.allSubscriptions, Router.getSubscriptions in *.
  rewrite map_app, concat_app in *. simpl in *.
  destruct Hkeys as [-> | [_ ->]]; [exact Hnd | ].
  eapply Permutation_NoDup; [ | exact (NoDup_cons _ Hheld Hnd)].
  rewrite <- app_assoc. simpl.
  etransitivity; [apply Permutation_middle | ].
  apply Permutation_app_head. apply Permutation_middle.
Qed.

(** Property X12.
    The router's own idempotency: a [subscribeTicker] that has returned
    is a no-operation when it is repeated. *)
Lemma router_subscribe_twice (symbol : string) (l l' : list Client) :
  Router.subscribeTicker symbol l = (Returned tt, l') ->
  Router.subscribeTicker symbol l' = (Returned tt, l').
Proof.
  unfold Router.subscribeTicker at 1.
  destruct (existsb _ l) eqn:Hheld.
  - intros H. injection H as <-. unfold Router.subscribeTicker. now rewrite Hheld.
  - destruct (getLastClient_target l) as (c & Hnth & _ & _).
    destruct (Router.getLastClient l) as [i l''] eqn:Hlast. simpl in Hnth.
    unfold Router.onClient. rewrite Hnth.
    destruct (Connection.subscribeTicker symbol c) as [o c'] eqn:Hsub.
    intros H. injection H as -> <-.
    assert (Hin : Router.holds (Router.getTickerSubscriptionKey symbol) c' = true).
    { rewrite subscribeTicker_eq in Hsub. unfold Router.holds, Router.getSubscriptions,
        Router.getTickerSubscriptionKey.
      destruct (socketOpen c); simpl in Hsub; [ | discriminate].
      destruct (Js.includes (subscriptions c) (Connection.tickerKey symbol)) eqn:Hc.
      - injection Hsub as <-. exact Hc.
      - destruct (ws c) as [w | ]; [ | discriminate].
        destruct (readyState w =? 0)%Z; injection Hsub as <-; simpl;
          rewrite includes_app, includes_single, String.eqb_refl; apply orb_true_r. }
    destruct (update_split i c c' l'' Hnth) as (l1 & l2 & _ & ->).
    unfold Router.subscribeTicker.
    rewrite existsb_app. simpl. rewrite Hin. now rewrite orb_true_r.
Qed.

(** ** Sharding, over any connection class *)

Section ShardingContract.

Variable K : Type.
Variable newClient : K.
Variable connectStarted : K -> K.
Variable clientSubscribeTicker : string -> K -> Outcome unit * K.
Variable getSubscriptions : K -> list string.
Variable getSubscriptionNumber : K -> nat.

(** Modelled from the spec: a connection fails a subscribe call with
    the not-connected error, and changes nothing, as long as it has never
    reached Open; token acquisition, transport open and handshake are
    each awaited, so a connection whose [connect()] was called and not
    awaited has not reached Open; and a new connection holds no key. *)
Hypothesis never_open_fails :
  forall symbol,
    clientSubscribeTicker symbol (connectStarted newClient)
    = (Thrown NotConnectedError, connectStarted newClient).
Hypothesis new_holds_no_key : getSubscriptions (connectStarted newClient) = [].
Hypothesis new_counts_zero : getSubscriptionNumber (connectStarted newClient) = 0%nat.




End ShardingContract.




(** * Further properties of the two classes *)

(** ** What every call and event keeps *)

Lemma Steady_refl (s : Client) : Steady s s.
Proof. repeat split; auto. Qed.

Lemma Steady_trans (s s' s'' : Client) : Steady s s' -> Steady s' s'' -> Steady s s''.
Proof.
  intros (Hws & Hopen & Hq & Hnd) (Hws' & Hopen' & Hq' & Hnd'). repeat split.
  - congruence.
  - congruence.
  - intros H1 H2. apply Hq'; [congruence | auto].
  - auto.
Qed.

Lemma Steady_coherent (s s' : Client) : Steady s s' -> Coherent s -> Coherent s'.
Proof.
  intros (Hws & Hopen & Hq & Hnd) (Cnd & Cq). split.
  - auto.
  - rewrite Hopen. intros H. auto.
Qed.

Lemma NoDup_remove_key (l : list string) (k : string) :
  NoDup l -> NoDup (Js.remove l k).
Proof. intros H. unfold Js.remove. now apply NoDup_filter. Qed.

Lemma remove_length (l : list string) (k : string) :
  (length (Js.remove l k) <= length l)%nat.
Proof. unfold Js.remove. apply filter_length_le. Qed.

Lemma subscribeTicker_steady (symbol : string) (s : Client) :
  Steady s (run (Connection.subscribeTicker symbol) s).
Proof.
  unfold run. rewrite subscribeTicker_eq.
  destruct (socketOpen s) eqn:Hopen; simpl; [ | apply Steady_refl].
  destruct (Js.includes _ _) eqn:Hin; [apply Steady_refl | ].
  apply includes_false_iff in Hin.
  destruct (ws s) as [w | ]; simpl; [destruct (readyState w =? 0)%Z | ];
    repeat split; simpl; auto; try congruence;
    intros Hnd; now apply NoDup_app_single.
Qed.

Lemma unsubscribeTicker_steady (symbol : string) (s : Client) :
  Steady s (run (Connection.unsubscribeTicker symbol) s).
Proof.
  unfold run. rewrite unsubscribeTicker_eq.
  destruct (socketOpen s) eqn:Hopen; simpl; [ | apply Steady_refl].
  destruct (Js.includes _ _); simpl; [ | apply Steady_refl].
  repeat split; simpl; auto; try congruence.
  intros Hnd. now apply NoDup_remove_key.
Qed.

Lemma closeConnection_steady (s : Client) :
  Steady s (run Connection.closeConnection s).
Proof.
  js_unfold. simpl. destruct (subscriptions s) eqn:Hs; simpl.
  - destruct (ws s) as [w | ] eqn:Hw; simpl; repeat split; simpl; auto;
      rewrite ?Hs, ?Hw; simpl; auto.
  - apply Steady_refl.
Qed.

Lemma queueRun_steady (now : Z) (s : Client) :
  Steady s (run (Connection.queueRun now) s).
Proof.
  js_unfold. destruct (queueProcessor s) as [ | j q] eqn:Hq; [apply Steady_refl | ].
  simpl. destruct (ws s) as [w | ] eqn:Hw; simpl; repeat split; simpl; auto;
    try congruence; rewrite ?Hw; simpl; auto.
Qed.

Lemma sendPing_steady (now : Z) (s : Client) :
  Steady s (run (Connection.sendPing now) s).
Proof.
  js_unfold. destruct (socketOpen s) eqn:Hopen; simpl; [ | apply Steady_refl].
  destruct (ws s) as [w | ] eqn:Hw; simpl; repeat split; simpl; auto;
    try congruence; rewrite ?Hw; simpl; auto.
Qed.

Lemma onError_steady (s : Client) : Steady s (run Connection.onError s).
Proof. repeat split; simpl; auto. Qed.

Lemma subscribeTicker_grows (symbol : string) (s : Client) :
  Grows 1 s (run (Connection.subscribeTicker symbol) s).
Proof.
  unfold Grows. destruct (subscribeTicker_keys symbol s) as [-> | [_ ->]]; [lia | ].
  rewrite length_app. simpl. lia.
Qed.

Lemma unsubscribeTicker_grows (symbol : string) (s : Client) :
  Grows 0 s (run (Connection.unsubscribeTicker symbol) s).
Proof.
  unfold Grows, run. rewrite unsubscribeTicker_eq.
  destruct (socketOpen s); simpl; [ | lia].
  destruct (Js.includes _ _); simpl; [ | lia].
  pose proof (remove_length (subscriptions s) (Connection.tickerKey symbol)). lia.
Qed.

Section CandleSteady.

Variable mapCandleInterval : string -> option string.

Lemma subscribeCandle_keys (symbol interval : string) (c : Client) :
  subscriptions (run (Connection.subscribeCandle mapCandleInterval symbol interval) c)
  = subscriptions c \/
  (~ In (Connection.candleKey symbol interval) (subscriptions c) /\
   subscriptions (run (Connection.subscribeCandle mapCandleInterval symbol interval) c)
   = (subscriptions c ++ [Connection.candleKey symbol interval])%list).
Proof.
  unfold run. rewrite subscribeCandle_eq.
  destruct (socketOpen c); simpl; [ | now left].
  destruct (Js.truthy _); simpl; [ | now left].
  destruct (Js.includes (subscriptions c) (Connection.candleKey symbol interval)) eqn:Hin;
    [now left | ].
  apply includes_false_iff in Hin. right. split; [assumption | ].
  destruct (ws c) as [w | ]; simpl; [ | reflexivity].
  destruct (readyState w =? 0)%Z; reflexivity.
Qed.

Lemma subscribeCandle_steady (symbol interval : string) (s : Client) :
  Steady s (run (Connection.subscribeCandle mapCandleInterval symbol interval) s).
Proof.
  unfold run. rewrite subscribeCandle_eq.
  destruct (socketOpen s) eqn:Hopen; simpl; [ | apply Steady_refl].
  destruct (Js.truthy _); simpl; [ | apply Steady_refl].
  destruct (Js.includes _ _) eqn:Hin; [apply Steady_refl | ].
  apply includes_false_iff in Hin.
  destruct (ws s) as [w | ]; simpl; [destruct (readyState w =? 0)%Z | ];
    repeat split; simpl; auto; try congruence;
    intros Hnd; now apply NoDup_app_single.
Qed.

Lemma subscribeCandle_grows (symbol interval : string) (s : Client) :
  Grows 1 s (run (Connection.subscribeCandle mapCandleInterval symbol interval) s).
Proof.
  unfold Grows. destruct (subscribeCandle_keys symbol interval s) as [-> | [_ ->]]; [lia | ].
  rewrite length_app. simpl. lia.
Qed.

Lemma unsubscribeCandle_steady (symbol interval : string) (s : Client) :
  Steady s (run (Connection.unsubscribeCandle mapCandleInterval symbol interval) s).
Proof.
  unfold run. rewrite unsubscribeCandle_eq.
  destruct (socketOpen s) eqn:Hopen; simpl; [ | apply Steady_refl].
  destruct (Js.truthy _); simpl; [ | apply Steady_refl].
  destruct (Js.includes _ _); simpl; [ | apply Steady_refl].
  repeat split; simpl; auto; try congruence.
  intros Hnd. now apply NoDup_remove_key.
Qed.

Lemma unsubscribeCandle_grows (symbol interval : string) (s : Client) :
  Grows 0 s (run (Connection.unsubscribeCandle mapCandleInterval symbol interval) s).
Proof.
  unfold Grows, run. rewrite unsubscribeCandle_eq.
  destruct (socketOpen s); simpl; [ | lia].
  destruct (Js.truthy _); simpl; [ | lia].
  destruct (Js.includes _ _); simpl; [ | lia].
  pose proof (remove_length (subscriptions s) (Connection.candleKey symbol interval)). lia.
Qed.

(** One turn of the replay loop is one subscribe call at most. *)
Lemma restartOne_cases (k : string) (s : Client) :
  run (Connection.restartOne mapCandleInterval k) s = s \/
  (exists symbol,
      run (Connection.restartOne mapCandleInterval k) s
      = run (Connection.subscribeTicker symbol) s) \/
  (exists symbol interval,
      run (Connection.restartOne mapCandleInterval k) s
      = run (Connection.subscribeCandle mapCandleInterval symbol interval) s).
Proof.
  unfold Connection.restartOne, run.
  destruct (nth_error (Js.split "-" k) 0) as [t | ]; [ | now left].
  destruct (String.eqb_spec t "ticker") as [-> | Hne].
  - cbn [String.eqb Ascii.eqb Bool.eqb].
    destruct (nth_error (Js.split "-" k) 1) as [sym | ].
    + right. left. exists sym. unfold bind, ret.
      destruct (Connection.subscribeTicker sym s) as [[[] | e] s']; reflexivity.
    + unfold bind, ret, throw, Connection.requireSocketToBeOpen.
      destruct (socketOpen s); now left.
  - destruct (String.eqb t "candle").
    + destruct (nth_error (Js.split "-" k) 1) as [sym | ].
      * right. right. exists sym, (Js.show (nth_error (Js.split "-" k) 2)).
        reflexivity.
      * unfold bind, ret, throw, Connection.requireSocketToBeOpen.
        destruct (socketOpen s); now left.
    + now left.
Qed.

Lemma restartOne_steady (k : string) (s : Client) :
  Steady s (run (Connection.restartOne mapCandleInterval k) s).
Proof.
  destruct (restartOne_cases k s) as [-> | [[sym ->] | [sym [itv ->]]]].
  - apply Steady_refl.
  - apply subscribeTicker_steady.
  - apply subscribeCandle_steady.
Qed.

Lemma restartOne_grows (k : string) (s : Client) :
  Grows 1 s (run (Connection.restartOne mapCandleInterval k) s).
Proof.
  destruct (restartOne_cases k s) as [-> | [[sym ->] | [sym [itv ->]]]].
  - unfold Grows. lia.
  - apply subscribeTicker_grows.
  - apply subscribeCandle_grows.
Qed.

Lemma restartEach_steady (keys : list string) :
  forall s, Steady s (run (Connection.restartEach mapCandleInterval keys) s) /\
            Grows (length keys) s (run (Connection.restartEach mapCandleInterval keys) s).
Proof.
  induction keys as [ | k rest IH]; intros s.
  - split; [apply Steady_refl | unfold Grows, run; simpl; lia].
  - pose proof (restartOne_steady k s) as H1.
    pose proof (restartOne_grows k s) as G1.
    unfold run in *. simpl. unfold bind.
    destruct (Connection.restartOne mapCandleInterval k s) as [[[] | e] s1]; simpl in *.
    + destruct (IH s1) as [H2 G2]. split.
      * eapply Steady_trans; eassumption.
      * unfold Grows in *. simpl. lia.
    + split; [assumption | unfold Grows in *; simpl; lia].
Qed.

Lemma restartPreviousSubscriptions_steady (s : Client) :
  Steady s (run (Connection.restartPreviousSubscriptions mapCandleInterval) s) /\
  Grows 0 s (run (Connection.restartPreviousSubscriptions mapCandleInterval) s).
Proof.
  unfold run, Connection.restartPreviousSubscriptions, bind, get, modify,
    Connection.wsReadyState, emit.
  destruct (socketOpen s) eqn:Hopen; simpl; [ | split; [apply Steady_refl | unfold Grows; lia]].
  destruct (ws s) as [w | ] eqn:Hw; simpl; [ | split; [apply Steady_refl | unfold Grows; lia]].
  destruct (readyState w =? 0)%Z; simpl.
  - split; [ | unfold Grows; simpl; lia].
    repeat split; simpl; auto; congruence.
  - destruct (restartEach_steady (subscriptions s) (set_subscriptions [] s)) as [H G].
    unfold run in *. split.
    + eapply Steady_trans; [ | exact H].
      repeat split; simpl; auto. intros _. constructor.
    + unfold Grows in *. simpl in G. lia.
Qed.

End CandleSteady.

Section SessionInvariant.

Variable mapCandleInterval : string -> option string.

(** The continuation of [connect()] ends either in a state that holds the
    keys it was given, or in what the replay makes of such a state. *)
Lemma connectResume_shape (tok : TokenOutcome) (cid : string) (hs : Handshake)
      (s : Client) :
  exists s0,
    subscriptions s0 = subscriptions s /\
    (Coherent s -> Coherent s0) /\
    (snd (Connection.connectResume mapCandleInterval tok cid hs s) = s0 \/
     snd (Connection.connectResume mapCandleInterval tok cid hs s)
     = run (Connection.restartPreviousSubscriptions mapCandleInterval) s0).
Proof.
  unfold Connection.connectResume.
  destruct tok as [ | [[d | ]]]; cbn [data].
  2: destruct (Js.truthy (token d)); cbn [negb].
  2: destruct (instanceServers d) as [ | server servers].
  1, 2, 4, 5: eexists; split; [ | split; [ | left; reflexivity]];
    [reflexivity | intros C; exact C].
  unfold Connection.openWebsocketConnection.
  cbn [socketOpen set_wsPath set_pingIntervalMs set_connectId set_candleCache
         set_askingClose].
  destruct (socketOpen s) eqn:Hopen; [ | destruct hs].
  - match goal with
    | |- context [Connection.restartPreviousSubscriptions _ ?X] => exists X
    end.
    split; [reflexivity | split].
    + intros (Cnd & Cq). split.
      * exact Cnd.
      * exact Cq.
    + match goal with
      | |- context [(0 <? ?n)%nat] => destruct (0 <? n)%nat
      end; [right | left; reflexivity].
      unfold run.
      match goal with
      | |- context [Connection.restartPreviousSubscriptions ?m ?X] =>
          destruct (Connection.restartPreviousSubscriptions m X) as [[[] | e] s']
      end; reflexivity.
  - match goal with
    | |- context [Connection.restartPreviousSubscriptions _ ?X] => exists X
    end.
    split; [reflexivity | split].
    + intros (Cnd & Cq). split.
      * exact Cnd.
      * intros H. discriminate H.
    + match goal with
      | |- context [(0 <? ?n)%nat] => destruct (0 <? n)%nat
      end; [right | left; reflexivity].
      unfold run.
      match goal with
      | |- context [Connection.restartPreviousSubscriptions ?m ?X] =>
          destruct (Connection.restartPreviousSubscriptions m X) as [[[] | e] s']
      end; reflexivity.
  - eexists. split; [ | split; [ | left; reflexivity]]; [reflexivity | ].
    intros (Cnd & Cq). split.
    + exact Cnd.
    + intros _. exact (Cq Hopen).
Qed.

Lemma connectResume_coherent (tok : TokenOutcome) (cid : string) (hs : Handshake)
      (s : Client) :
  Coherent s -> Coherent (snd (Connection.connectResume mapCandleInterval tok cid hs s)).
Proof.
  intros C. destruct (connectResume_shape tok cid hs s) as (s0 & _ & C0 & [-> | ->]).
  - auto.
  - eapply Steady_coherent; [ | exact (C0 C)].
    apply restartPreviousSubscriptions_steady.
Qed.

Lemma connectResume_grows (tok : TokenOutcome) (cid : string) (hs : Handshake)
      (s : Client) :
  Grows 0 s (snd (Connection.connectResume mapCandleInterval tok cid hs s)).
Proof.
  destruct (connectResume_shape tok cid hs s) as (s0 & Hkeys & _ & [-> | ->]);
    unfold Grows.
  - rewrite Hkeys. lia.
  - pose proof (proj2 (restartPreviousSubscriptions_steady mapCandleInterval s0)) as G.
    unfold Grows in G. rewrite Hkeys in G. exact G.
Qed.

Lemma onClose_coherent (s : Client) : Coherent s -> Coherent (Connection.onClose s).
Proof.
  intros (Cnd & _).
  destruct (onClose_fields s) as (Hkeys & Hopen & _ & Hq).
  split.
  - now rewrite Hkeys.
  - intros _. exact Hq.
Qed.

(** The continuation from the welcome ends in the state with the flag
    raised, or in what the replay makes of that state. *)
Lemma handshakeCompleted_shape (s : Client) :
  exists s0,
    subscriptions s0 = subscriptions s /\ socketOpen s0 = true /\
    (snd (Session.handshakeCompleted mapCandleInterval s) = s0 \/
     snd (Session.handshakeCompleted mapCandleInterval s)
     = run (Connection.restartPreviousSubscriptions mapCandleInterval) s0).
Proof.
  unfold Session.handshakeCompleted.
  match goal with
  | |- context [Connection.restartPreviousSubscriptions _ ?X] => exists X
  end.
  split; [reflexivity | split; [reflexivity | ]].
  match goal with
  | |- context [(0 <? ?n)%nat] => destruct (0 <? n)%nat
  end; [right | left; reflexivity].
  unfold run.
  match goal with
  | |- context [Connection.restartPreviousSubscriptions ?m ?X] =>
      destruct (Connection.restartPreviousSubscriptions m X) as [[[] | e] s']
  end; reflexivity.
Qed.

Lemma handshakeCompleted_coherent (s : Client) :
  Coherent s -> Coherent (snd (Session.handshakeCompleted mapCandleInterval s)).
Proof.
  intros (Cnd & _).
  destruct (handshakeCompleted_shape s) as (s0 & Hkeys & Hopen & Hres).
  assert (C0 : Coherent s0).
  { split; [now rewrite Hkeys | rewrite Hopen; discriminate]. }
  destruct Hres as [-> | ->]; [exact C0 | ].
  eapply Steady_coherent; [ | exact C0]. apply restartPreviousSubscriptions_steady.
Qed.

Lemma handshakeCompleted_grows (s : Client) :
  Grows 0 s (snd (Session.handshakeCompleted mapCandleInterval s)).
Proof.
  destruct (handshakeCompleted_shape s) as (s0 & Hkeys & _ & [-> | ->]); unfold Grows.
  - rewrite Hkeys. lia.
  - pose proof (proj2 (restartPreviousSubscriptions_steady mapCandleInterval s0)) as G.
    unfold Grows in G. rewrite Hkeys in G. exact G.
Qed.

(** The run of [connect()] in which the handshake arrives before
    anything else is the run that stops at the handshake, followed by the
    transport's "open" and by the continuation from the welcome. *)
Lemma connect_welcomed_in_steps (tok : TokenOutcome) (cid : string) (s : Client) :
  snd (Connection.connectResume mapCandleInterval tok cid Welcomed s)
  = match Connection.connectResume mapCandleInterval tok cid Stalled s with
    | (Pending, s1) =>
        snd (Session.handshakeCompleted mapCandleInterval (Session.transportState 1 s1))
    | (_, s1) => s1
    end.
Proof.
  unfold Connection.connectResume.
  destruct tok as [ | [[d | ]]]; cbn [data]; try reflexivity.
  destruct (Js.truthy (token d)); cbn [negb]; [ | reflexivity].
  destruct (instanceServers d) as [ | server servers]; [reflexivity | ].
  match goal with
  | |- context [Connection.openWebsocketConnection Welcomed ?X] => set (s1 := X)
  end.
  clearbody s1.
  unfold Connection.openWebsocketConnection.
  destruct (socketOpen s1) eqn:Hopen.
  - destruct (0 <? length (subscriptions s1))%nat; [ | reflexivity].
    destruct (Connection.restartPreviousSubscriptions mapCandleInterval s1)
      as [[[] | e] s']; reflexivity.
  - unfold Session.handshakeCompleted, Session.transportState. reflexivity.
Qed.

Lemma call_coherent (c : Session.Call) (s : Client) :
  Coherent s -> Coherent (Session.call mapCandleInterval c s).
Proof.
  intros C. destruct c; simpl.
  - apply connectResume_coherent. exact C.
  - eapply Steady_coherent; [apply subscribeTicker_steady | exact C].
  - eapply Steady_coherent; [apply unsubscribeTicker_steady | exact C].
  - eapply Steady_coherent; [apply subscribeCandle_steady | exact C].
  - eapply Steady_coherent; [apply unsubscribeCandle_steady | exact C].
  - eapply Steady_coherent; [apply closeConnection_steady | exact C].
Qed.

Lemma handle_coherent (e : Session.Event) (s : Client) :
  Coherent s -> Coherent (Session.handle mapCandleInterval e s).
Proof.
  intros C. destruct e; simpl.
  - now apply onClose_coherent.
  - eapply Steady_coherent; [apply onError_steady | exact C].
  - exact C.
  - now apply connectResume_coherent.
  - now apply handshakeCompleted_coherent.
  - unfold Connection.reconnect, Connection.connect.
    apply connectResume_coherent. exact C.
  - eapply Steady_coherent; [apply restartPreviousSubscriptions_steady | exact C].
  - eapply Steady_coherent; [apply sendPing_steady | exact C].
  - eapply Steady_coherent; [apply queueRun_steady | exact C].
Qed.

Lemma handle_grows (e : Session.Event) (s : Client) :
  Grows 0 s (Session.handle mapCandleInterval e s).
Proof.
  destruct e; simpl.
  - unfold Grows. rewrite (proj1 (onClose_fields s)). lia.
  - unfold Grows. simpl. lia.
  - unfold Grows. simpl. lia.
  - apply connectResume_grows.
  - apply handshakeCompleted_grows.
  - unfold Connection.reconnect, Connection.connect.
    match goal with
    | |- Grows 0 s (snd (Connection.connectResume _ _ _ _ ?X)) =>
        pose proof (connectResume_grows tok cid hs X) as G
    end.
    exact G.
  - apply restartPreviousSubscriptions_steady.
  - unfold Grows, run. js_unfold. destruct (socketOpen s); simpl; [ | lia].
    destruct (ws s); simpl; lia.
  - unfold Grows, run. js_unfold. destruct (queueProcessor s); simpl; [lia | ].
    destruct (ws s); simpl; lia.
Qed.

Lemma run_coherent (steps : list Session.Step) :
  forall s, Coherent s ->
            Coherent (fold_left (fun s x => Session.step mapCandleInterval x s) steps s).
Proof.
  induction steps as [ | x steps IH]; intros s C; simpl; [exact C | ].
  apply IH. destruct x; [now apply call_coherent | now apply handle_coherent].
Qed.

(** Property X1.
    Whatever is called on a connection and whatever happens to it, in any
    order (the continuations of overlapping [connect()] calls and the
    events of transports it no longer holds included), its subscription
    array holds no key twice, and no function waits in its queue while
    its flag is down. *)
Theorem session_stays_coherent (steps : list Session.Step) :
  NoDup (subscriptions (Session.after mapCandleInterval steps)) /\
  (socketOpen (Session.after mapCandleInterval steps) = false ->
   queueProcessor (Session.after mapCandleInterval steps) = []).
Proof.
  apply (run_coherent steps Connection.new).
  split; [constructor | reflexivity].
Qed.

End SessionInvariant.

(** ** Subscribe, then unsubscribe *)

Lemma remove_app_single (l : list string) (k : string) :
  ~ In k l -> Js.remove (l ++ [k]) k = l.
Proof.
  intros Hnot. unfold Js.remove. rewrite filter_app. simpl.
  rewrite String.eqb_refl. simpl. rewrite app_nil_r.
  apply forallb_filter_id. apply forallb_forall. intros x Hx.
  destruct (String.eqb_spec x k) as [-> | _]; [contradiction | reflexivity].
Qed.

Section RoundTrip.

Variable mapCandleInterval : string -> option string.

(** Property X4.
    On an open connection with a ready transport, subscribing to a key
    that is not held and unsubscribing from it again gives back the
    subscription array as it was; the queue has received the subscribe
    frame and then the unsubscribe frame of one topic, and two
    notifications were emitted, the array with the key and the array
    without it. *)
Theorem subscribe_unsubscribe_round_trip (s : Client) (w : WebSocket)
        (symbol interval : string) :
  socketOpen s = true -> ws s = Some w -> readyState w <> 0%Z ->
  (~ In (Connection.tickerKey symbol) (subscriptions s) ->
   let s2 := run (Connection.unsubscribeTicker symbol)
                 (run (Connection.subscribeTicker symbol) s) in
   outcome (Connection.unsubscribeTicker symbol)
     (run (Connection.subscribeTicker symbol) s) = Returned tt /\
   subscriptions s2 = subscriptions s /\
   queueProcessor s2
   = (queueProcessor s ++
        [mkJob "subscribe" (Connection.tickerTopic symbol);
         mkJob "unsubscribe" (Connection.tickerTopic symbol)])%list /\
   emitted s2
   = (emitted s ++
        [EvSubscriptions (subscriptions s ++ [Connection.tickerKey symbol]);
         EvSubscriptions (subscriptions s)])%list) /\
  (~ In (Connection.candleKey symbol interval) (subscriptions s) ->
   Js.truthy (mapCandleInterval interval) = true ->
   let s2 := run (Connection.unsubscribeCandle mapCandleInterval symbol interval)
                 (run (Connection.subscribeCandle mapCandleInterval symbol interval) s) in
   outcome (Connection.unsubscribeCandle mapCandleInterval symbol interval)
     (run (Connection.subscribeCandle mapCandleInterval symbol interval) s) = Returned tt /\
   subscriptions s2 = subscriptions s /\
   queueProcessor s2
   = (queueProcessor s ++
        [mkJob "subscribe" (Connection.candleTopic symbol (mapCandleInterval interval));
         mkJob "unsubscribe" (Connection.candleTopic symbol (mapCandleInterval interval))])%list /\
   emitted s2
   = (emitted s ++
        [EvSubscriptions (subscriptions s ++ [Connection.candleKey symbol interval]);
         EvSubscriptions (subscriptions s)])%list).
Proof.
  intros Hopen Hws Hready. apply Z.eqb_neq in Hready. split.
  - intros Hnot. pose proof Hnot as Hin. apply includes_false_iff in Hin.
    cbv zeta. unfold run, outcome.
    rewrite (subscribeTicker_eq symbol s), Hopen, Hin, Hws. simpl. rewrite Hready.
    rewrite unsubscribeTicker_eq. simpl. rewrite Hopen. simpl.
    rewrite includes_app, includes_single, String.eqb_refl, orb_true_r. simpl.
    rewrite (remove_app_single _ _ Hnot), <- !app_assoc. repeat split.
  - intros Hnot Hitv. pose proof Hnot as Hin. apply includes_false_iff in Hin.
    cbv zeta. unfold run, outcome.
    rewrite (subscribeCandle_eq mapCandleInterval symbol interval s), Hopen, Hitv, Hin, Hws.
    simpl. rewrite Hready.
    rewrite unsubscribeCandle_eq. simpl. rewrite Hopen, Hitv. simpl.
    rewrite includes_app, includes_single, String.eqb_refl, orb_true_r. simpl.
    rewrite (remove_app_single _ _ Hnot), <- !app_assoc. repeat split.
Qed.

End RoundTrip.

(** ** The queue *)

(** Property X5.
    The queue is first in, first out: run once per clock reading, it
    takes its functions from the front, one per reading, and the
    transport, when there is one, receives their frames in that order,
    each with the reading at which it ran as its id.  Without a transport
    the functions are consumed all the same and nothing is sent. *)
Theorem drain_is_fifo (clocks : list Z) :
  forall s,
    queueProcessor (Session.drain clocks s)
    = skipn (length clocks) (queueProcessor s) /\
    option_map sent (ws (Session.drain clocks s))
    = option_map
        (fun w => (sent w ++ map (fun p => Connection.commandFrame (fst p) (snd p))
                                 (combine clocks (queueProcessor s)))%list)
        (ws s) /\
    subscriptions (Session.drain clocks s) = subscriptions s.
Proof.
  induction clocks as [ | now rest IH]; intros s.
  - simpl. repeat split. destruct (ws s); simpl; [now rewrite app_nil_r | reflexivity].
  - simpl. destruct (IH (run (Connection.queueRun now) s)) as (Hq & Hsent & Hkeys).
    rewrite Hq, Hsent, Hkeys. unfold run. js_unfold.
    destruct (queueProcessor s) as [ | j q] eqn:Hqueue.
    + simpl. rewrite Hqueue. split; [now rewrite skipn_nil | ].
      split; [ | reflexivity]. now rewrite combine_nil.
    + simpl. destruct (ws s) as [w | ] eqn:Hw; simpl.
      * split; [reflexivity | ]. split; [ | reflexivity].
        now rewrite <- app_assoc.
      * repeat split. now rewrite Hw.
Qed.

(** ** Transport close, requested or not *)

(** Property X6.
    The handler of the transport's "close" event keeps the subscription
    array, lowers the flag, drops the transport, empties the queue, stops
    the ping timer, and starts a reconnection exactly when the close was
    not asked for.  After a [closeConnection()] that returned, the close
    event starts none. *)
Theorem close_event_reconnects_unless_requested (s : Client) :
  subscriptions (Connection.onClose s) = subscriptions s /\
  socketOpen (Connection.onClose s) = false /\
  ws (Connection.onClose s) = None /\
  queueProcessor (Connection.onClose s) = [] /\
  pingTimer (Connection.onClose s) = None /\
  timers (Connection.onClose s)
  = (timers s ++ if askingClose s then [] else [TimerReconnect])%list /\
  (outcome Connection.closeConnection s = Returned tt ->
   timers (Connection.onClose (run Connection.closeConnection s)) = timers s).
Proof.
  unfold Connection.onClose. simpl.
  destruct (askingClose s) eqn:Hask; simpl; repeat split;
    try (now rewrite app_nil_r).
  all: unfold outcome, run; js_unfold; simpl;
    destruct (subscriptions s); simpl; try discriminate;
    destruct (ws s); simpl; try discriminate; reflexivity.
Qed.

(** ** What the subscribe calls and the replay leave alone *)

Lemma Untouched_refl (s : Client) : Untouched s s.
Proof. repeat split. Qed.

Lemma Untouched_trans (s s' s'' : Client) :
  Untouched s s' -> Untouched s' s'' -> Untouched s s''.
Proof. unfold Untouched. intuition congruence. Qed.

Lemma subscribeTicker_untouched (symbol : string) (s : Client) :
  Untouched s (run (Connection.subscribeTicker symbol) s).
Proof.
  unfold run. rewrite subscribeTicker_eq.
  destruct (socketOpen s); simpl; [ | apply Untouched_refl].
  destruct (Js.includes _ _); [apply Untouched_refl | ].
  destruct (ws s) as [w | ] eqn:Hw; simpl; [destruct (readyState w =? 0)%Z | ];
    repeat split; simpl; auto.
Qed.

Section ReplayUntouched.

Variable mapCandleInterval : string -> option string.

Lemma subscribeCandle_untouched (symbol interval : string) (s : Client) :
  Untouched s (run (Connection.subscribeCandle mapCandleInterval symbol interval) s).
Proof.
  unfold run. rewrite subscribeCandle_eq.
  destruct (socketOpen s); simpl; [ | apply Untouched_refl].
  destruct (Js.truthy _); simpl; [ | apply Untouched_refl].
  destruct (Js.includes _ _); [apply Untouched_refl | ].
  destruct (ws s) as [w | ] eqn:Hw; simpl; [destruct (readyState w =? 0)%Z | ];
    repeat split; simpl; auto.
Qed.

Lemma restartEach_untouched (keys : list string) :
  forall s, Untouched s (run (Connection.restartEach mapCandleInterval keys) s).
Proof.
  induction keys as [ | k rest IH]; intros s; [apply Untouched_refl | ].
  assert (H1 : Untouched s (run (Connection.restartOne mapCandleInterval k) s)).
  { destruct (restartOne_cases mapCandleInterval k s)
      as [-> | [[sym ->] | [sym [itv ->]]]].
    - apply Untouched_refl.
    - apply subscribeTicker_untouched.
    - apply subscribeCandle_untouched. }
  unfold run in *. simpl. unfold bind.
  destruct (Connection.restartOne mapCandleInterval k s) as [[[] | e] s1]; simpl in *.
  - eapply Untouched_trans; [exact H1 | apply IH].
  - exact H1.
Qed.

Lemma restartPreviousSubscriptions_untouched (s : Client) :
  Untouched s (run (Connection.restartPreviousSubscriptions mapCandleInterval) s).
Proof.
  unfold run, Connection.restartPreviousSubscriptions, bind, get, modify,
    Connection.wsReadyState, emit.
  destruct (socketOpen s) eqn:Hopen; simpl; [ | apply Untouched_refl].
  destruct (ws s) as [w | ] eqn:Hw; simpl; [ | apply Untouched_refl].
  destruct (readyState w =? 0)%Z; simpl.
  - repeat split; simpl; auto.
  - eapply Untouched_trans;
      [ | exact (restartEach_untouched (subscriptions s) (set_subscriptions [] s))].
    repeat split.
Qed.

(** Property X7.
    [connect()] on a connection whose flag is up, with a token request
    that succeeds: no transport is created, the one attached stays as it
    is and so does the ping timer; the connection identity is replaced,
    and [socketConnecting], raised at the start of the call, is still up
    when the call is over. *)
Theorem connect_on_open_connection
        (s : Client) (tkn cid : string) (hs : Handshake) (server : InstanceServer)
        (servers : list InstanceServer) :
  socketOpen s = true -> tkn <> "" ->
  ws (snd (Connection.connect mapCandleInterval
             (GotResolved (mkPublicToken (Some (mkTokenData (Some tkn) (server :: servers)))))
             cid hs s)) = ws s /\
  socketOpen (snd (Connection.connect mapCandleInterval
             (GotResolved (mkPublicToken (Some (mkTokenData (Some tkn) (server :: servers)))))
             cid hs s)) = true /\
  socketConnecting (snd (Connection.connect mapCandleInterval
             (GotResolved (mkPublicToken (Some (mkTokenData (Some tkn) (server :: servers)))))
             cid hs s)) = true /\
  pingTimer (snd (Connection.connect mapCandleInterval
             (GotResolved (mkPublicToken (Some (mkTokenData (Some tkn) (server :: servers)))))
             cid hs s)) = pingTimer s /\
  connectId (snd (Connection.connect mapCandleInterval
             (GotResolved (mkPublicToken (Some (mkTokenData (Some tkn) (server :: servers)))))
             cid hs s)) = cid.
Proof.
  intros Hopen Htkn.
  assert (Htruthy : Js.truthy (Some tkn) = true)
    by (destruct tkn; [congruence | reflexivity]).
  unfold Connection.connect, Connection.connectResume.
  cbn [data token instanceServers]. rewrite Htruthy. cbn [negb].
  unfold Connection.openWebsocketConnection.
  cbn [socketOpen set_wsPath set_pingIntervalMs set_connectId set_candleCache
         set_askingClose Connection.connectBegin set_socketConnecting].
  rewrite Hopen.
  match goal with
  | |- context [Connection.restartPreviousSubscriptions _ ?X] => set (s1 := X)
  end.
  assert (F : ws s1 = ws s /\ socketOpen s1 = true /\ socketConnecting s1 = true /\
              pingTimer s1 = pingTimer s /\ connectId s1 = cid)
    by (repeat split; exact Hopen).
  clearbody s1.
  destruct (0 <? length (subscriptions s1))%nat; [ | exact F].
  pose proof (restartPreviousSubscriptions_untouched s1) as U. unfold run in U.
  destruct (Connection.restartPreviousSubscriptions mapCandleInterval s1)
    as [[[] | e] s2]; simpl in *;
    destruct U as (U1 & U2 & U3 & U4 & U5 & U6);
    destruct F as (F1 & F2 & F3 & F4 & F5);
    repeat split; congruence.
Qed.

End ReplayUntouched.

(** ** The frames of a replay *)

Section ReplayFrames.

Variable mapCandleInterval : string -> option string.

Lemma Replayable_job (k : string) :
  Replayable mapCandleInterval k -> exists j, ReplayJob mapCandleInterval k j.
Proof.
  intros [symbol H | symbol interval H1 H2 H3]; eexists; constructor; assumption.
Qed.

Lemma restartOne_job (k : string) (j : Job) (s : Client) (w : WebSocket) :
  ReplayJob mapCandleInterval k j ->
  socketOpen s = true -> ws s = Some w -> readyState w <> 0%Z ->
  ~ In k (subscriptions s) ->
  exists s',
    Connection.restartOne mapCandleInterval k s = (Returned tt, s') /\
    subscriptions s' = (subscriptions s ++ [k])%list /\
    queueProcessor s' = (queueProcessor s ++ [j])%list /\
    socketOpen s' = true /\ ws s' = Some w.
Proof.
  intros Hk Hopen Hws Hready Hnot.
  apply Z.eqb_neq in Hready. apply includes_false_iff in Hnot.
  destruct Hk as [symbol Hsym | symbol interval Hsym Hint Hmap].
  - unfold Connection.restartOne. rewrite split_tickerKey by assumption.
    cbn [nth_error String.eqb Ascii.eqb Bool.eqb]. unfold bind at 1.
    rewrite subscribeTicker_eq, Hopen, Hnot, Hws. simpl. rewrite Hready.
    eexists. split; [reflexivity | ]. simpl. now rewrite Hws.
  - unfold Connection.restartOne. rewrite split_candleKey by assumption.
    cbn [nth_error String.eqb Ascii.eqb Bool.eqb Js.show]. unfold bind, ret.
    rewrite subscribeCandle_eq, Hopen, Hmap, Hnot, Hws. simpl. rewrite Hready.
    eexists. split; [reflexivity | ]. simpl. now rewrite Hws.
Qed.

Lemma restartEach_jobs (keys : list string) :
  forall (jobs : list Job) (s : Client) (w : WebSocket),
    Forall2 (ReplayJob mapCandleInterval) keys jobs ->
    socketOpen s = true -> ws s = Some w -> readyState w <> 0%Z ->
    NoDup (subscriptions s ++ keys) ->
    exists s',
      Connection.restartEach mapCandleInterval keys s = (Returned tt, s') /\
      subscriptions s' = (subscriptions s ++ keys)%list /\
      queueProcessor s' = (queueProcessor s ++ jobs)%list.
Proof.
  induction keys as [ | k rest IH]; intros jobs s w Hall Hopen Hws Hready Hnd;
    inversion Hall as [ | ? j ? jrest Hk Hrest]; subst.
  - exists s. now rewrite !app_nil_r.
  - assert (Hnot : ~ In k (subscriptions s)).
    { intros Hin. apply NoDup_remove_2 in Hnd. apply Hnd.
      apply in_or_app. now left. }
    destruct (restartOne_job k j s w Hk Hopen Hws Hready Hnot)
      as (s1 & Hone & Hkeys & Hq & Hopen1 & Hws1).
    destruct (IH jrest s1 w Hrest Hopen1 Hws1 Hready) as (s2 & Heach & Hkeys2 & Hq2).
    { rewrite Hkeys, <- app_assoc. exact Hnd. }
    exists s2. split; [ | split].
    + simpl. unfold bind. rewrite Hone. exact Heach.
    + rewrite Hkeys2, Hkeys, <- app_assoc. reflexivity.
    + rewrite Hq2, Hq, <- app_assoc. reflexivity.
Qed.

Lemma Replayable_jobs (keys : list string) :
  Forall (Replayable mapCandleInterval) keys ->
  exists jobs, Forall2 (ReplayJob mapCandleInterval) keys jobs.
Proof.
  induction 1 as [ | k rest Hk _ [jobs IH]].
  - exists []. constructor.
  - destruct (Replayable_job k Hk) as [j Hj]. exists (j :: jobs). now constructor.
Qed.

Lemma connect_replays_jobs
      (s : Client) (jobs : list Job) (tkn cid : string) (server : InstanceServer)
      (servers : list InstanceServer) :
  tkn <> "" ->
  socketOpen s = false ->
  NoDup (subscriptions s) ->
  Forall2 (ReplayJob mapCandleInterval) (subscriptions s) jobs ->
  queueProcessor
    (snd (Connection.connect mapCandleInterval
            (GotResolved (mkPublicToken (Some (mkTokenData (Some tkn) (server :: servers)))))
            cid Welcomed s))
  = (queueProcessor s ++ jobs)%list.
Proof.
  intros Htkn Hopen Hnd Hjobs.
  assert (Htruthy : Js.truthy (Some tkn) = true)
    by (destruct tkn; [congruence | reflexivity]).
  unfold Connection.connect, Connection.connectResume.
  cbn [data token instanceServers]. rewrite Htruthy. cbn [negb].
  unfold Connection.openWebsocketConnection.
  cbn [socketOpen set_wsPath set_pingIntervalMs set_connectId set_candleCache
         set_askingClose Connection.connectBegin set_socketConnecting].
  rewrite Hopen.
  match goal with
  | |- context [Connection.restartPreviousSubscriptions _ ?X] => set (s2 := X)
  end.
  assert (Hs2 : subscriptions s2 = subscriptions s) by reflexivity.
  assert (Hq2 : queueProcessor s2 = queueProcessor s) by reflexivity.
  assert (Ho2 : socketOpen s2 = true) by reflexivity.
  assert (Hw2 : exists w, ws s2 = Some w /\ readyState w <> 0%Z)
    by (eexists; split; [reflexivity | discriminate]).
  destruct Hw2 as (w & Hw2 & Hready).
  clearbody s2. rewrite <- Hs2 in *. rewrite <- Hq2. clear Hq2.
  destruct (subscriptions s2) as [ | k rest] eqn:Hk.
  - cbn [length Nat.ltb Nat.leb snd]. inversion Hjobs. now rewrite app_nil_r.
  - cbn [length Nat.ltb Nat.leb].
    rewrite (restartPreviousSubscriptions_ready mapCandleInterval s2 w Ho2 Hw2 Hready), Hk.
    destruct (restartEach_jobs (k :: rest) jobs (set_subscriptions [] s2) w
                Hjobs Ho2 Hw2 Hready Hnd)
      as (s' & Heach & _ & Hqs).
    rewrite Heach. cbn [snd]. exact Hqs.
Qed.

(** Property X9.
    After a transport close and a reconnection whose token request and
    handshake succeed, the queue of a connection whose keys all read back
    as they were written holds exactly one subscribe frame per key, in
    the order of the keys, each with the topic of its key: what was
    waiting in the queue before the close is gone, and every
    subscription is asked for again on the new transport. *)
Theorem replay_enqueues_one_frame_per_key
        (s : Client) (tkn cid : string) (server : InstanceServer)
        (servers : list InstanceServer) :
  tkn <> "" ->
  NoDup (subscriptions s) ->
  Forall (Replayable mapCandleInterval) (subscriptions s) ->
  Forall2 (ReplayJob mapCandleInterval) (subscriptions s)
    (queueProcessor
       (Connection.reconnect mapCandleInterval
          (GotResolved (mkPublicToken (Some (mkTokenData (Some tkn) (server :: servers)))))
          cid Welcomed (Connection.onClose s))).
Proof.
  intros Htkn Hnd Hall.
  destruct (Replayable_jobs _ Hall) as [jobs Hjobs].
  destruct (onClose_fields s) as (Hkeys & Hopen & _ & Hq).
  unfold Connection.reconnect.
  match goal with
  | |- context [Connection.connect _ ?tok _ _ ?X] => set (st := X)
  end.
  assert (Hkeys' : subscriptions st = subscriptions s) by exact Hkeys.
  assert (Hopen' : socketOpen st = false) by exact Hopen.
  assert (Hq' : queueProcessor st = []) by exact Hq.
  clearbody st. rewrite <- Hkeys' in *.
  rewrite (connect_replays_jobs st jobs tkn cid server servers Htkn Hopen' Hnd Hjobs).
  rewrite Hq'. exact Hjobs.
Qed.

End ReplayFrames.

(** ** The router over any sequence of calls and events *)

Lemma update_within (i : nat) (c c' : Client) (l : list Client) :
  nth_error l i = Some c ->
  (Connection.getSubscriptionNumber c' <= Router.maxSubscriptions)%nat ->
  WithinCapacity l -> WithinCapacity (Router.update i c' l).
Proof.
  intros Hnth Hc' Hcap. unfold WithinCapacity in *.
  destruct (update_split i c c' l Hnth) as (l1 & l2 & -> & ->).
  apply Forall_app in Hcap as [H1 H2]. inversion H2; subst.
  apply Forall_app. split; [assumption | now constructor].
Qed.

Lemma onClient_within (i : nat) (m : M unit) (l : list Client) :
  (forall c, Grows 0 c (snd (m c))) ->
  WithinCapacity l -> WithinCapacity (snd (Router.onClient i m l)).
Proof.
  intros Hm Hcap. unfold Router.onClient.
  destruct (nth_error l i) as [c | ] eqn:Hnth; [ | exact Hcap].
  pose proof (Hm c) as G. destruct (m c) as [o c']. simpl in *.
  apply (update_within i c c' l Hnth); [ | exact Hcap].
  assert (Hc : (Connection.getSubscriptionNumber c <= Router.maxSubscriptions)%nat)
    by (exact (proj1 (Forall_forall _ _) Hcap c (nth_error_In _ _ Hnth))).
  unfold Grows, Connection.getSubscriptionNumber in *. lia.
Qed.

Lemma getLastClient_within (l : list Client) :
  WithinCapacity l -> WithinCapacity (snd (Router.getLastClient l)).
Proof.
  intros Hcap. destruct (getLastClient_target l) as (_ & _ & _ & [-> | [-> _]]);
    [exact Hcap | ].
  apply Forall_app. split; [exact Hcap | ].
  constructor; [ | constructor].
  change (0 <= Router.maxSubscriptions)%nat. apply Nat.le_0_l.
Qed.

Lemma delegate_within (m : M unit) (l : list Client) :
  (forall c, Grows 1 c (snd (m c))) ->
  WithinCapacity l ->
  WithinCapacity
    (snd (let (i, l') := Router.getLastClient l in Router.onClient i m l')).
Proof.
  intros Hm Hcap.
  pose proof (getLastClient_within l Hcap) as Hcap'.
  destruct (getLastClient_target l) as (c & Hnth & Hbelow & _).
  destruct (Router.getLastClient l) as [i l']. simpl in *.
  unfold Router.onClient. rewrite Hnth.
  pose proof (Hm c) as G. destruct (m c) as [o c']. simpl in *.
  apply (update_within i c c' l' Hnth); [ | exact Hcap'].
  unfold Grows, Connection.getSubscriptionNumber in *. lia.
Qed.

Lemma closeFrom_within (n : nat) :
  forall i l, WithinCapacity l -> WithinCapacity (snd (Fleet.closeFrom i n l)).
Proof.
  induction n as [ | n IH]; intros i l Hcap; simpl; [exact Hcap | ].
  assert (H : WithinCapacity (snd (Router.onClient i Connection.closeConnection l))).
  { apply onClient_within; [ | exact Hcap].
    intros c. unfold Grows. js_unfold. simpl.
    destruct (subscriptions c) eqn:Hs; simpl; rewrite ?Hs; simpl; try lia.
    destruct (ws c); simpl; rewrite ?Hs; simpl; lia. }
  destruct (Router.onClient i Connection.closeConnection l) as [[[] | e] l'];
    simpl in *; [now apply IH | exact H].
Qed.

Section FleetInvariant.

Variable mapCandleInterval : string -> option string.

Lemma step_within (x : Fleet.Step) (l : list Client) :
  WithinCapacity l -> WithinCapacity (Fleet.step mapCandleInterval x l).
Proof.
  intros Hcap. destruct x; simpl.
  - now apply getLastClient_within.
  - unfold Router.subscribeTicker. destruct (existsb _ l); [exact Hcap | ].
    apply delegate_within; [ | exact Hcap]. intros c. apply subscribeTicker_grows.
  - unfold Router.unsubscribeTicker.
    destruct (existsb _ l); simpl; [ | exact Hcap].
    destruct (Router.findIndex _ l); [ | exact Hcap].
    apply onClient_within; [ | exact Hcap]. intros c. apply unsubscribeTicker_grows.
  - unfold Router.subscribeCandle. destruct (existsb _ l); [exact Hcap | ].
    apply delegate_within; [ | exact Hcap]. intros c. apply subscribeCandle_grows.
  - unfold Router.unsubscribeCandle.
    destruct (existsb _ l); simpl; [ | exact Hcap].
    destruct (Router.findIndex _ l); [ | exact Hcap].
    apply onClient_within; [ | exact Hcap]. intros c. apply unsubscribeCandle_grows.
  - apply (closeFrom_within (length l) 0 l Hcap).
  - destruct (nth_error l i) as [c | ] eqn:Hnth; [ | exact Hcap].
    apply (update_within i c _ l Hnth); [ | exact Hcap].
    assert (Hc : (Connection.getSubscriptionNumber c <= Router.maxSubscriptions)%nat)
      by (exact (proj1 (Forall_forall _ _) Hcap c (nth_error_In _ _ Hnth))).
    pose proof (handle_grows mapCandleInterval e c) as G.
    unfold Grows, Connection.getSubscriptionNumber in *. lia.
Qed.

(** Property X10.
    No connection of a router ever holds more than 98 Feed Keys: whatever
    the owner calls on the router and whatever happens to its
    connections, closes, reconnections and replays included, in any
    order. *)
Theorem fleet_never_exceeds_capacity (steps : list Fleet.Step) :
  Forall (fun c => (Connection.getSubscriptionNumber c <= 98)%nat)
    (Fleet.after mapCandleInterval steps).
Proof.
  change (WithinCapacity (Fleet.after mapCandleInterval steps)).
  unfold Fleet.after.
  assert (H : forall l, WithinCapacity l ->
                        WithinCapacity
                          (fold_left (fun l x => Fleet.step mapCandleInterval x l) steps l)).
  { induction steps as [ | x steps IH]; intros l Hcap; simpl; [exact Hcap | ].
    apply IH. now apply step_within. }
  apply H. constructor.
Qed.

End FleetInvariant.

(** ** The router's sums and searches *)

Lemma fold_sum_shift (l : list Client) (n : nat) :
  fold_left (fun acc client => acc + Connection.getSubscriptionNumber client)%nat l n
  = (n + length (Router.allSubscriptions l))%nat.
Proof.
  revert n. induction l as [ | c l IH]; intros n; simpl; [lia | ].
  rewrite IH. unfold Router.allSubscriptions. simpl. rewrite length_app.
  unfold Connection.getSubscriptionNumber, Router.getSubscriptions. lia.
Qed.

(** Property X13.
    [getSubscriptionNumber()] of the router is the sum of the counts of
    its connections, and it is the number of keys in the list that
    [emitSubscriptions] publishes. *)
Theorem router_count_is_sum (l : list Client) :
  Router.getSubscriptionNumber l = list_sum (Router.counts l) /\
  Router.getSubscriptionNumber l = length (Router.allSubscriptions l).
Proof.
  unfold Router.getSubscriptionNumber. rewrite fold_sum_shift. split; [ | reflexivity].
  simpl. induction l as [ | c l IH]; [reflexivity | ].
  unfold Router.allSubscriptions in *. simpl. rewrite length_app, IH. reflexivity.
Qed.

Local Open Scope list_scope.

Lemma nth_error_middle (l1 l2 : list Client) (c : Client) :
  nth_error (l1 ++ c :: l2) (length l1) = Some c.
Proof. induction l1 as [ | a l1 IH]; simpl; [reflexivity | exact IH]. Qed.

Lemma update_middle (l1 l2 : list Client) (c c' : Client) :
  Router.update (length l1) c' (l1 ++ c :: l2) = (l1 ++ c' :: l2)%list.
Proof. induction l1 as [ | a l1 IH]; simpl; [reflexivity | now rewrite IH]. Qed.

Lemma onClient_middle (m : M unit) (l1 l2 : list Client) (c : Client) :
  Router.onClient (length l1) m (l1 ++ c :: l2)
  = (fst (m c), (l1 ++ snd (m c) :: l2)%list).
Proof.
  unfold Router.onClient. rewrite nth_error_middle.
  destruct (m c) as [o c']. simpl. now rewrite update_middle.
Qed.

Lemma closeFrom_closable (l2 : list Client) :
  forall l1 rest n,
    Forall (fun c => subscriptions c = [] /\ ws c <> None) l2 ->
    Fleet.closeFrom (length l1) (length l2 + n) (l1 ++ l2 ++ rest)
    = Fleet.closeFrom (length l1 + length l2) n
        (l1 ++ map (run Connection.closeConnection) l2 ++ rest).
Proof.
  induction l2 as [ | c l2 IH]; intros l1 rest n Hall.
  - simpl. now rewrite Nat.add_0_r.
  - inversion Hall as [ | ? ? [Hkeys Hws] Hrest]; subst.
    cbn [length Fleet.closeFrom app Nat.add]. rewrite onClient_middle.
    assert (Hc : fst (Connection.closeConnection c) = Returned tt).
    { js_unfold. simpl. rewrite Hkeys. simpl. destruct (ws c); [reflexivity | congruence]. }
    rewrite Hc.
    replace (S (length l1)) with (length (l1 ++ [snd (Connection.closeConnection c)]))
      by (rewrite length_app; simpl; lia).
    replace (l1 ++ snd (Connection.closeConnection c) :: l2 ++ rest)
      with ((l1 ++ [snd (Connection.closeConnection c)]) ++ l2 ++ rest)
      by (now rewrite <- app_assoc).
    rewrite (IH _ rest n Hrest). cbn [map]. unfold run.
    rewrite <- !app_assoc, length_app. cbn [length app].
    now replace (length l1 + 1 + length l2)%nat with (length l1 + S (length l2))%nat by lia.
Qed.

(** Property X14.
    The router's [closeConnection] closes its connections one after the
    other and stops at the first that throws.  When every connection has
    an empty subscription array and a transport, all of them are closed.
    When a connection still holds a key, the call throws the
    active-subscriptions error after having closed all the connections
    before that one, and leaves that one and all the later ones as they
    were. *)
Theorem router_close_stops_at_first_subscribed (l1 l2 : list Client) (c : Client) :
  Forall (fun x => subscriptions x = [] /\ ws x <> None) l1 ->
  Router.closeConnection l1
  = (Returned tt, map (run Connection.closeConnection) l1) /\
  (subscriptions c <> [] ->
   Router.closeConnection (l1 ++ c :: l2)
   = (Thrown ActiveSubscriptionsError,
      map (run Connection.closeConnection) l1 ++ c :: l2)).
Proof.
  intros Hall. split.
  - change (Router.closeConnection l1) with (Fleet.closeFrom 0 (length l1) l1).
    pose proof (closeFrom_closable l1 [] [] 0 Hall) as H.
    cbn [length app Nat.add] in H. rewrite Nat.add_0_r, !app_nil_r in H. exact H.
  - intros Hkeys.
    change (Router.closeConnection (l1 ++ c :: l2))
      with (Fleet.closeFrom 0 (length (l1 ++ c :: l2)) (l1 ++ c :: l2)).
    rewrite length_app. cbn [length].
    pose proof (closeFrom_closable l1 [] (c :: l2) (S (length l2)) Hall) as H.
    cbn [length app Nat.add] in H. rewrite H.
    cbn [Fleet.closeFrom].
    pose proof (onClient_middle Connection.closeConnection
                  (map (run Connection.closeConnection) l1) l2 c) as Hm.
    rewrite length_map in Hm. rewrite Hm.
    assert (Hc : Connection.closeConnection c = (Thrown ActiveSubscriptionsError, c)).
    { js_unfold. simpl. destruct (subscriptions c); [congruence | reflexivity]. }
    rewrite Hc. reflexivity.
Qed.

(** ** Unsubscribing through the router *)






(** ** Connecting the router *)

(** Property X16.
    The router's [connect()] returns at once.  Either the last connection
    has room and nothing changes, or one connection is appended whose
    [connect()] has only started: the router then reports that it is not
    open and that it is connecting.  A second [connect()] right after the
    first changes nothing. *)
Theorem router_connect_returns_before_open (l : list Client) :
  fst (Router.connect l) = Returned tt /\
  (snd (Router.connect l) = l \/
   snd (Router.connect l) = (l ++ [Connection.connectBegin Connection.new])%list /\
   Router.isSocketOpen (snd (Router.connect l)) = false /\
   Router.isSocketConnecting (snd (Router.connect l)) = true) /\
  snd (Router.connect (snd (Router.connect l))) = snd (Router.connect l).
Proof.
  split; [reflexivity | ].
  assert (Hroom : forall l0,
             snd (Router.getLastClient (l0 ++ [Connection.connectBegin Connection.new]))
             = l0 ++ [Connection.connectBegin Connection.new]).
  { intros l0. unfold Router.getLastClient.
    rewrite length_app. simpl. replace (length l0 + 1 - 1)%nat with (length l0) by lia.
    rewrite nth_error_app_last. reflexivity. }
  assert (Hcases : Router.getLastClient l = (length l - 1, l)%nat \/
                   Router.getLastClient l
                   = (length l, l ++ [Connection.connectBegin Connection.new])).
  { unfold Router.getLastClient.
    destruct (nth_error l (length l - 1)) as [lastClient | ]; [ | now right].
    destruct (Router.maxSubscriptions <=? Connection.getSubscriptionNumber lastClient)%nat;
      [now right | now left]. }
  unfold Router.connect. cbn [snd].
  destruct Hcases as [He | He]; rewrite !He; cbn [snd].
  - split; [now left | ]. now rewrite He.
  - split; [right | apply Hroom]. repeat split.
    + unfold Router.isSocketOpen. rewrite forallb_app. simpl. apply andb_false_r.
    + unfold Router.isSocketConnecting. rewrite existsb_app. simpl. apply orb_true_r.
Qed.

(** ** The theorems at work *)

Lemma replay_fidelity_readable_keys_witness :
  subscriptions
    (Connection.reconnect Sample.mapCandleInterval
       (GotResolved (mkPublicToken (Some (mkTokenData (Some "tkn") [Sample.server]))))
       Sample.cid Welcomed (Connection.onClose Scenario.twoFeeds))
  = subscriptions Scenario.twoFeeds.
Proof.
  apply (replay_fidelity_readable_keys Sample.mapCandleInterval Scenario.twoFeeds
           "tkn" Sample.cid Sample.server []).
  - discriminate.
  - vm_compute. repeat constructor; simpl; intuition discriminate.
  - constructor; [exact (ReplayableTicker Sample.mapCandleInterval "BTC/USDT" eq_refl) | ].
    constructor; [exact (ReplayableCandle Sample.mapCandleInterval "BTC/USDT" "1m" eq_refl eq_refl eq_refl) | ].
    constructor.
Defined.

Lemma replay_enqueues_one_frame_per_key_witness :
  Forall2 (ReplayJob Sample.mapCandleInterval) (subscriptions Scenario.twoFeeds)
    (queueProcessor
       (Connection.reconnect Sample.mapCandleInterval
          (GotResolved (mkPublicToken (Some (mkTokenData (Some "tkn") [Sample.server]))))
          Sample.cid Welcomed (Connection.onClose Scenario.twoFeeds))).
Proof.
  apply (replay_enqueues_one_frame_per_key Sample.mapCandleInterval Scenario.twoFeeds
           "tkn" Sample.cid Sample.server []).
  - discriminate.
  - vm_compute. repeat constructor; simpl; intuition discriminate.
  - constructor; [exact (ReplayableTicker Sample.mapCandleInterval "BTC/USDT" eq_refl) | ].
    constructor; [exact (ReplayableCandle Sample.mapCandleInterval "BTC/USDT" "1m" eq_refl eq_refl eq_refl) | ].
    constructor.
Defined.

Lemma router_keys_stay_distinct_witness :
  NoDup (Router.allSubscriptions (snd (Router.subscribeTicker "ETH/USDT"
                                         Scenario.routerWithTicker))).
Proof.
  apply (router_keys_stay_distinct "ETH/USDT" Scenario.routerWithTicker).
  vm_compute. repeat constructor; simpl; intuition discriminate.
Defined.

Lemma router_subscribe_twice_witness :
  Router.subscribeTicker "BTC/USDT" Scenario.routerWithTicker
  = (Returned tt, Scenario.routerWithTicker).
Proof.
  apply (router_subscribe_twice "BTC/USDT" Scenario.router Scenario.routerWithTicker).
  vm_compute. reflexivity.
Defined.

Lemma session_stays_coherent_witness :
  queueProcessor
    (Session.after Sample.mapCandleInterval
       [Session.Called (Session.CallConnect Sample.tokenOk Sample.cid Welcomed);
        Session.Called (Session.CallSubscribeTicker "BTC/USDT");
        Session.Happened Session.TransportClosed]) = [].
Proof.
  apply (proj2 (session_stays_coherent Sample.mapCandleInterval
                  [Session.Called
                     (Session.CallConnect Sample.tokenOk Sample.cid Welcomed);
                   Session.Called (Session.CallSubscribeTicker "BTC/USDT");
                   Session.Happened Session.TransportClosed])).
  vm_compute. reflexivity.
Defined.

Lemma subscribe_unsubscribe_round_trip_witness :
  subscriptions
    (run (Connection.unsubscribeTicker "BTC/USDT")
         (run (Connection.subscribeTicker "BTC/USDT") Sample.opened))
  = subscriptions Sample.opened /\
  subscriptions
    (run (Connection.unsubscribeCandle Sample.mapCandleInterval "BTC/USDT" "1m")
         (run (Connection.subscribeCandle Sample.mapCandleInterval "BTC/USDT" "1m")
              Sample.opened))
  = subscriptions Sample.opened.
Proof.
  assert (Hready : readyState (mkWebSocket (wsPath Sample.opened) 1 [] 0) <> 0%Z)
    by (simpl; discriminate).
  destruct (subscribe_unsubscribe_round_trip Sample.mapCandleInterval Sample.opened
              (mkWebSocket (wsPath Sample.opened) 1 [] 0) "BTC/USDT" "1m"
              eq_refl eq_refl Hready) as [Hticker Hcandle].
  split.
  - exact (proj1 (proj2 (Hticker (fun H : False => H)))).
  - exact (proj1 (proj2 (Hcandle (fun H : False => H) eq_refl))).
Defined.

Lemma close_event_reconnects_unless_requested_witness :
  timers (Connection.onClose (run Connection.closeConnection Sample.opened))
  = timers Sample.opened.
Proof.
  exact (proj2 (proj2 (proj2 (proj2 (proj2 (proj2
           (close_event_reconnects_unless_requested Sample.opened)))))) eq_refl).
Defined.

Lemma connect_on_open_connection_witness :
  socketConnecting
    (snd (Connection.connect Sample.mapCandleInterval
            (GotResolved (mkPublicToken (Some (mkTokenData (Some "tkn") [Sample.server]))))
            "11ee" Welcomed Sample.opened)) = true.
Proof.
  assert (Htkn : "tkn" <> "") by discriminate.
  exact (proj1 (proj2 (proj2 (connect_on_open_connection Sample.mapCandleInterval
                                Sample.opened "tkn" "11ee" Welcomed Sample.server []
                                eq_refl Htkn)))).
Defined.

Lemma router_close_stops_at_first_subscribed_witness :
  Router.closeConnection [Sample.opened]
  = (Returned tt, map (run Connection.closeConnection) [Sample.opened]) /\
  Router.closeConnection ([Sample.opened] ++ Scenario.twoFeeds :: [Sample.opened])
  = (Thrown ActiveSubscriptionsError,
     map (run Connection.closeConnection) [Sample.opened]
       ++ Scenario.twoFeeds :: [Sample.opened]).
Proof.
  assert (Hall : Forall (fun x => subscriptions x = [] /\ ws x <> None) [Sample.opened]).
  { constructor; [ | constructor]. split; [reflexivity | discriminate]. }
  destruct (router_close_stops_at_first_subscribed [Sample.opened] [Sample.opened]
              Scenario.twoFeeds Hall) as [Hclosed Hstop].
  split; [exact Hclosed | ]. apply Hstop. discriminate.
Defined.

